(** * app/models.py: the models of the to-do list application

    A shallow embedding of [app/models.py]: the validation helpers, the three
    mapped classes [User], [TodoList] and [Todo], and the [BaseModel] mixin
    that persists them through [db.session].

    Python values are modelled as follows.
    - A [str] is a [string]; its characters are the code points below 256.
    - An argument that may be [None] is an [option]; [None] is Python's
      [None].
    - A nullable column is an [option] as well; [None] is SQL's [NULL].
    - A [datetime] is an integer time stamp.
    - A method is a computation in the monad [M]: it threads the object it
      is called on together with the database session, and it either
      returns a value or raises an exception. *)

From Stdlib Require Import ZArith List String Ascii Bool Arith Lia.
Import ListNotations.

Local Open Scope string_scope.
Local Open Scope list_scope.

Set Implicit Arguments.

(** ** Exceptions and the method monad *)

Inductive exn : Type :=
| ValueError (msg : string)
| AttributeError (msg : string)
| IntegrityError.

Inductive result (A : Type) : Type :=
| Ok (a : A)
| Raise (e : exn).

Arguments Ok {A} a.
Arguments Raise {A} e.

Definition is_ok {A : Type} (r : result A) : bool :=
  match r with Ok _ => true | Raise _ => false end.

(** A computation over a state [S]: the outcome and the state it leaves. *)
Definition M (S A : Type) : Type := S -> result A * S.

Definition ret {S A : Type} (a : A) : M S A := fun s => (Ok a, s).

Definition bind {S A B : Type} (m : M S A) (k : A -> M S B) : M S B :=
  fun s => match m s with
           | (Ok a, s') => k a s'
           | (Raise e, s') => (Raise e, s')
           end.

Definition raise {S A : Type} (e : exn) : M S A := fun s => (Raise e, s).

Definition gets {S A : Type} (f : S -> A) : M S A := fun s => (Ok (f s), s).

Definition modify {S : Type} (f : S -> S) : M S unit := fun s => (Ok tt, f s).

(** [try: body except E: handler], where [catches] recognises [E]. *)
Definition try_except {S A : Type}
    (body : M S A) (catches : exn -> bool) (handler : M S A) : M S A :=
  fun s => match body s with
           | (Ok a, s') => (Ok a, s')
           | (Raise e, s') => if catches e then handler s' else (Raise e, s')
           end.

Declare Scope monad_scope.
Delimit Scope monad_scope with monad.
Notation "x <- m ;; k" := (bind m (fun x => k))
  (at level 61, m at next level, right associativity) : monad_scope.
Notation "m ;; k" := (bind m (fun _ => k))
  (at level 61, right associativity) : monad_scope.
Local Open Scope monad_scope.

(** ** Truth values of Python objects *)

Definition datetime : Type := Z.

(** [bool(s)] for a [str] or [None]: only a non-empty string is true. *)
Definition truthy_str (v : option string) : bool :=
  match v with
  | Some (String _ _) => true
  | Some EmptyString => false
  | None => false
  end.

(** [bool(b)] for a nullable Boolean. *)
Definition truthy_bool (v : option bool) : bool :=
  match v with
  | Some b => b
  | None => false
  end.

(** [str.format] of a [str] or [None] argument. *)
Definition format_arg (v : option string) : string :=
  match v with
  | Some s => s
  | None => "None"
  end.

(** The [str] behind a value already known to be true, that is, to be a
    non-empty string. *)
Definition str_of (v : option string) : string :=
  match v with
  | Some s => s
  | None => ""
  end.

(** ** Validation helpers *)

(** [check_length(attribute, length)]:
    [bool(attribute) and len(attribute) <= length].  For [None] the
    conjunction stops at [bool(attribute)], so [len] is never applied. *)
Definition check_length (attribute : option string) (length : nat) : bool :=
  match attribute with
  | Some s => truthy_str (Some s) && (String.length s <=? length)%nat
  | None => false
  end.

(** *** The fragment of [re] the two patterns use *)

Definition LF : ascii := "010"%char.

(** The class [\s] on the code points below 256: the ASCII white space
    [ \t\n\r\f\v], the separators 0x1c to 0x1f, NEL and the no-break
    space. *)
Definition is_space (c : ascii) : bool :=
  let n := nat_of_ascii c in
  ((9 <=? n) && (n <=? 13) || (28 <=? n) && (n <=? 32)
   || (n =? 133) || (n =? 160))%nat.

Inductive item : Type :=
| Caret                (* ^   *)
| Dollar               (* $   *)
| Lit (c : ascii)      (* a literal character, escaped or not *)
| NonSpacePlus.        (* \S+ *)

Definition regex : Type := list item.

(** [$] without [re.MULTILINE]: at the end of the string, and also just
    before a newline that ends the string. *)
Definition at_end (s : string) : bool :=
  match s with
  | EmptyString => true
  | String c EmptyString => Ascii.eqb c LF
  | _ => false
  end.

(** Backtracking matcher: does [re] match a prefix of [s]?  [at_start]
    tells whether [s] is the whole subject. *)
Fixpoint match_here (re : regex) (at_start : bool) (s : string) {struct re}
  : bool :=
  match re with
  | [] => true
  | Caret :: re' => at_start && match_here re' at_start s
  | Dollar :: re' => at_end s && match_here re' at_start s
  | Lit c :: re' =>
      match s with
      | String c' s' => Ascii.eqb c c' && match_here re' false s'
      | EmptyString => false
      end
  | NonSpacePlus :: re' =>
      (fix plus (s : string) : bool :=
         match s with
         | String c' s' =>
             negb (is_space c') && (plus s' || match_here re' false s')
         | EmptyString => false
         end) s
  end.

(** [bool(pattern.match(s))]. *)
Definition re_match (re : regex) (s : string) : bool := match_here re true s.

(** [EMAIL_REGEX = re.compile(r'^\S+@\S+\.\S+$')] *)
Definition EMAIL_REGEX : regex :=
  [Caret; NonSpacePlus; Lit "@"; NonSpacePlus; Lit "."; NonSpacePlus; Dollar].

(** [USERNAME_REGEX = re.compile(r'^\S+$')] *)
Definition USERNAME_REGEX : regex := [Caret; NonSpacePlus; Dollar].

(** ** The schema

    One record per table; an instance of a mapped class is a row value.
    Every column but the primary key is nullable, as in the source, where
    no column is declared [nullable=False]; the primary key of an object
    reads [None] until an INSERT assigns it. *)

Module user.
Record row : Type := mk {
  id : option Z;
  username : option string;
  email : option string;
  password_hash : option string;
  member_since : option datetime;
  last_seen : option datetime;
  is_admin : option bool
}.

Definition set_id (v : option Z) (u : row) : row :=
  mk v (username u) (email u) (password_hash u) (member_since u)
     (last_seen u) (is_admin u).
Definition set_username (v : option string) (u : row) : row :=
  mk (id u) v (email u) (password_hash u) (member_since u)
     (last_seen u) (is_admin u).
Definition set_email (v : option string) (u : row) : row :=
  mk (id u) (username u) v (password_hash u) (member_since u)
     (last_seen u) (is_admin u).
Definition set_password_hash (v : option string) (u : row) : row :=
  mk (id u) (username u) (email u) v (member_since u)
     (last_seen u) (is_admin u).
Definition set_member_since (v : option datetime) (u : row) : row :=
  mk (id u) (username u) (email u) (password_hash u) v
     (last_seen u) (is_admin u).
Definition set_last_seen (v : option datetime) (u : row) : row :=
  mk (id u) (username u) (email u) (password_hash u) (member_since u)
     v (is_admin u).
Definition set_is_admin (v : option bool) (u : row) : row :=
  mk (id u) (username u) (email u) (password_hash u) (member_since u)
     (last_seen u) v.

(** An instance none of whose attributes has been assigned. *)
Definition blank : row := mk None None None None None None None.
End user.

Module todolist.
Record row : Type := mk {
  id : option Z;
  title : option string;
  created_at : option datetime;
  creator : option string
}.

Definition set_id (v : option Z) (l : row) : row :=
  mk v (title l) (created_at l) (creator l).
Definition set_title (v : option string) (l : row) : row :=
  mk (id l) v (created_at l) (creator l).
Definition set_created_at (v : option datetime) (l : row) : row :=
  mk (id l) (title l) v (creator l).
End todolist.

Module todo.
Record row : Type := mk {
  id : option Z;
  description : option string;
  created_at : option datetime;
  finished_at : option datetime;
  is_finished : option bool;
  creator : option string;
  todolist_id : option Z
}.

Definition set_id (v : option Z) (t : row) : row :=
  mk v (description t) (created_at t) (finished_at t) (is_finished t)
     (creator t) (todolist_id t).
Definition set_created_at (v : option datetime) (t : row) : row :=
  mk (id t) (description t) v (finished_at t) (is_finished t)
     (creator t) (todolist_id t).
Definition set_finished_at (v : option datetime) (t : row) : row :=
  mk (id t) (description t) (created_at t) v (is_finished t)
     (creator t) (todolist_id t).
Definition set_is_finished (v : option bool) (t : row) : row :=
  mk (id t) (description t) (created_at t) (finished_at t) v
     (creator t) (todolist_id t).
End todo.

(** The committed content of the database. *)
Record DB : Type := mkDB {
  users : list user.row;
  todolists : list todolist.row;
  todos : list todo.row
}.

Definition empty_db : DB := mkDB [] [] [].

(** What a method can reach besides its object: the database, the clock
    behind [datetime.utcnow()], and the salt that the password library's
    random generator yields next. *)
Record World : Type := mkWorld {
  store : DB;
  clock : datetime;
  entropy : string
}.

Definition set_store (d : DB) (w : World) : World :=
  mkWorld d (clock w) (entropy w).

(** The state a method runs in: the object [self], whether [db.session]
    holds it with changes that are not flushed yet, and the world.  The
    session is scoped to one call: it holds no other object. *)
Record Ctx (A : Type) : Type := mkCtx {
  self : A;
  pending : bool;
  world : World
}.

Definition on_self {A : Type} (f : A -> A) (c : Ctx A) : Ctx A :=
  mkCtx (f (self c)) (pending c) (world c).

(** Run a method on an object that the session does not hold yet. *)
Definition call {A B : Type} (m : M (Ctx A) B) (o : A) (w : World)
  : result B * Ctx A :=
  m (mkCtx o false w).

(** [datetime.utcnow()] *)
Definition utcnow {A : Type} : M (Ctx A) datetime :=
  gets (fun c => clock (world c)).

(** Default for a column whose attribute was never assigned. *)
Definition default_to {V : Type} (d : V) (v : option V) : option V :=
  match v with
  | Some x => Some x
  | None => Some d
  end.

(** SQL equality: [NULL] is equal to nothing. *)
Definition sql_eq_str (a b : option string) : bool :=
  match a, b with
  | Some x, Some y => String.eqb x y
  | _, _ => false
  end.

Definition sql_eq_int (a b : option Z) : bool :=
  match a, b with
  | Some x, Some y => Z.eqb x y
  | _, _ => false
  end.

Definition sql_eq_bool (a b : option bool) : bool :=
  match a, b with
  | Some x, Some y => Bool.eqb x y
  | _, _ => false
  end.

(** What [db.Model] gives a mapped class: its primary key, its table, the
    column defaults applied by an INSERT, and the [unique=True] constraints
    checked against the other rows. *)
Class Model (A : Type) : Type := {
  pk : A -> option Z;
  set_pk : Z -> A -> A;
  table : DB -> list A;
  set_table : list A -> DB -> DB;
  column_defaults : datetime -> A -> A;
  unique_ok : list A -> A -> bool
}.

#[export] Instance user_model : Model user.row := {
  pk := user.id;
  set_pk := fun i u => user.set_id (Some i) u;
  table := users;
  set_table := fun rows d => mkDB rows (todolists d) (todos d);
  column_defaults := fun now u =>
    user.set_is_admin (default_to false (user.is_admin u))
      (user.set_last_seen (default_to now (user.last_seen u))
         (user.set_member_since (default_to now (user.member_since u)) u));
  unique_ok := fun rows u =>
    negb (existsb (fun r =>
                     sql_eq_str (user.username r) (user.username u)
                     || sql_eq_str (user.email r) (user.email u)) rows)
}.

#[export] Instance todolist_model : Model todolist.row := {
  pk := todolist.id;
  set_pk := fun i l => todolist.set_id (Some i) l;
  table := todolists;
  set_table := fun rows d => mkDB (users d) rows (todos d);
  column_defaults := fun now l =>
    todolist.set_created_at (default_to now (todolist.created_at l)) l;
  unique_ok := fun _ _ => true
}.

#[export] Instance todo_model : Model todo.row := {
  pk := todo.id;
  set_pk := fun i t => todo.set_id (Some i) t;
  table := todos;
  set_table := fun rows d => mkDB (users d) (todolists d) rows;
  column_defaults := fun now t =>
    todo.set_is_finished (default_to false (todo.is_finished t))
      (todo.set_created_at (default_to now (todo.created_at t)) t);
  unique_ok := fun _ _ => true
}.

(** ** [db.session] and [BaseModel]

    The session is the external collaborator; the model keeps what the
    methods rely on.  An object is persistent when its primary key names a
    stored row: flushing it is an UPDATE of that row, flushing any other
    object is an INSERT.  A flush that breaks a [unique=True] constraint
    raises [IntegrityError] and changes nothing.  The foreign keys of the
    schema are recorded but not enforced.

    An object is its row: the model does not tell a persistent object from
    a new instance that was handed the key of a stored row.  The library
    INSERTs such an instance, the clash of keys raises [IntegrityError],
    and the stored row stays.  The properties of stored objects below
    therefore take the object to be new and without a key, or to be a row
    of the table. *)

Section BaseModel.
Context {A : Type} `{Model A}.

Definition has_pk (i : Z) (r : A) : bool := sql_eq_int (pk r) (Some i).

(** The next key of an auto-incremented integer primary key. *)
Definition next_id (rows : list A) : Z :=
  (1 + fold_right (fun r m => match pk r with
                              | Some j => Z.max j m
                              | None => m
                              end) 0 rows)%Z.

Definition insert (o : A) (d : DB) : result (A * DB) :=
  if unique_ok (table d) o
  then Ok (o, set_table (table d ++ [o]) d)
  else Raise IntegrityError.

Definition update (i : Z) (o : A) (d : DB) : result (A * DB) :=
  if unique_ok (filter (fun r => negb (has_pk i r)) (table d)) o
  then Ok (o, set_table (map (fun r => if has_pk i r then o else r)
                             (table d)) d)
  else Raise IntegrityError.

Definition flush (now : datetime) (o : A) (d : DB) : result (A * DB) :=
  match pk o with
  | Some i =>
      if existsb (has_pk i) (table d)
      then update i o d
      else insert (column_defaults now o) d
  | None =>
      insert (set_pk (next_id (table d)) (column_defaults now o)) d
  end.

(** After a rollback the attributes of a persistent object are expired
    and read from its row again; any other object keeps its own. *)
Definition reload (d : DB) (o : A) : A :=
  match pk o with
  | Some i =>
      match find (has_pk i) (table d) with
      | Some r => r
      | None => o
      end
  | None => o
  end.

(** [db.session.add(self)] *)
Definition session_add : M (Ctx A) unit :=
  modify (fun c => mkCtx (self c) true (world c)).

(** [db.session.commit()]: on success the object reads as it was
    written, key and defaults included; on failure the transaction stays
    open and nothing is written. *)
Definition session_commit : M (Ctx A) unit :=
  fun c =>
    if pending c then
      match flush (clock (world c)) (self c) (store (world c)) with
      | Ok (o, d) => (Ok tt, mkCtx o false (set_store d (world c)))
      | Raise e => (Raise e, c)
      end
    else (Ok tt, c).

(** [db.session.rollback()] *)
Definition session_rollback : M (Ctx A) unit :=
  modify (fun c =>
            mkCtx (reload (store (world c)) (self c)) false (world c)).

Definition is_IntegrityError (e : exn) : bool :=
  match e with
  | IntegrityError => true
  | _ => false
  end.

(** [BaseModel.__commit]: commits the current [db.session], does a
    rollback on failure. *)
Definition __commit : M (Ctx A) unit :=
  try_except session_commit is_IntegrityError session_rollback.

(** [BaseModel.save]: adds this model to the db and returns it. *)
Definition save : M (Ctx A) A :=
  session_add ;;
  __commit ;;
  gets (@self A).

(** [cls.query.get(ident)]: the row with that primary key, or [None]. *)
Definition query_get (ident : Z) (d : DB) : option A :=
  find (has_pk ident) (table d).

(** [BaseModel.from_dict(cls, model_dict)]: [cls( **model_dict).save()].
    [cls] is the constructor of the class, which may raise; the outcome of
    [save] and the world it leaves are returned. *)
Definition from_dict {K : Type} (cls : K -> World -> result A)
    (model_dict : K) (w : World) : result A * World :=
  match cls model_dict w with
  | Ok o => (fst (call save o w), world (snd (call save o w)))
  | Raise e => (Raise e, w)
  end.
End BaseModel.


(** ** The dictionaries that [to_dict] builds *)

Inductive pyval : Type :=
| PyNone
| PyBool (b : bool)
| PyInt (n : Z)
| PyStr (s : string)
| PyDatetime (t : datetime).

(** A dictionary with [str] keys, in the order of the literal. *)
Definition dict : Type := list (string * pyval).

Definition of_str (v : option string) : pyval :=
  match v with
  | Some s => PyStr s
  | None => PyNone
  end.

Definition of_int (v : option Z) : pyval :=
  match v with
  | Some n => PyInt n
  | None => PyNone
  end.

Definition of_datetime (v : option datetime) : pyval :=
  match v with
  | Some t => PyDatetime t
  | None => PyNone
  end.

(** [d.get(key)] *)
Fixpoint dict_get (key : string) (d : dict) : option pyval :=
  match d with
  | [] => None
  | (k, v) :: d' => if String.eqb k key then Some v else dict_get key d'
  end.

(** ** [class User] *)

Module User.

(** [User.name]: the property reads [username]. *)
Definition name : M (Ctx user.row) (option string) :=
  gets (fun c => user.username (self c)).

(** [bool(pattern.match(v))].  Both setters reach it only behind a
    successful [check_length], hence never with [None]. *)
Definition matches (re : regex) (v : option string) : bool :=
  match v with
  | Some s => re_match re s
  | None => false
  end.

(** [User.name] setter. *)
Definition name_setter (username : option string) : M (Ctx user.row) unit :=
  let is_valid_length := check_length username 64 in
  if negb is_valid_length || negb (matches USERNAME_REGEX username)
  then raise (ValueError (format_arg username ++ " is not a valid username"))
  else modify (on_self (user.set_username username)).

(** [User.emailaddress]: the property reads [email]. *)
Definition emailaddress : M (Ctx user.row) (option string) :=
  gets (fun c => user.email (self c)).

(** [User.emailaddress] setter. *)
Definition emailaddress_setter (email : option string)
  : M (Ctx user.row) unit :=
  if negb (check_length email 64) || negb (matches EMAIL_REGEX email)
  then raise (ValueError (format_arg email ++ " is not a valid email address"))
  else modify (on_self (user.set_email email)).

(** [User.password]: the property is not readable. *)
Definition password : M (Ctx user.row) string :=
  raise (AttributeError "password is not a readable attribute").

Section Werkzeug.

(** [werkzeug.security], an external library.  [generate_password_hash]
    takes the salt it draws as its first argument here. *)
Variable generate_password_hash : string -> string -> string.
Variable check_password_hash : string -> string -> bool.

(** [check_password_hash(pwhash, password)] as the caller meets it: the
    library starts by calling a [str] method on [pwhash], which fails with
    [AttributeError] when [pwhash] is [None]. *)
Definition check_password_hash_py (pwhash : option string) (password : string)
  : M (Ctx user.row) bool :=
  match pwhash with
  | Some h => ret (check_password_hash h password)
  | None => raise (AttributeError "'NoneType' object has no attribute")
  end.

(** [User.password] setter. *)
Definition password_setter (password : option string)
  : M (Ctx user.row) unit :=
  if negb (truthy_str password)
  then raise (ValueError "no password given")
  else
    salt <- gets (fun c => entropy (world c)) ;;
    let hashed_password := generate_password_hash salt (str_of password) in
    if negb (check_length (Some hashed_password) 128)
    then raise (ValueError "not a valid password, hash is too long")
    else modify (on_self (user.set_password_hash (Some hashed_password))).

(** [User.verify_password] *)
Definition verify_password (password : string) : M (Ctx user.row) bool :=
  pwhash <- gets (fun c => user.password_hash (self c)) ;;
  check_password_hash_py pwhash password.

(** A keyword argument of [User( **kwargs)]: a column, or one of the
    properties [name], [emailaddress] and [password]. *)
Inductive kwarg : Type :=
| kw_id (v : option Z)
| kw_username (v : option string)
| kw_email (v : option string)
| kw_password_hash (v : option string)
| kw_member_since (v : option datetime)
| kw_last_seen (v : option datetime)
| kw_is_admin (v : option bool)
| kw_name (v : option string)
| kw_emailaddress (v : option string)
| kw_password (v : option string).

(** [setattr(self, k, kwargs[k])]: a column is assigned as it is, a
    property goes through its setter. *)
Definition setattr (k : kwarg) : M (Ctx user.row) unit :=
  match k with
  | kw_id v => modify (on_self (user.set_id v))
  | kw_username v => modify (on_self (user.set_username v))
  | kw_email v => modify (on_self (user.set_email v))
  | kw_password_hash v => modify (on_self (user.set_password_hash v))
  | kw_member_since v => modify (on_self (user.set_member_since v))
  | kw_last_seen v => modify (on_self (user.set_last_seen v))
  | kw_is_admin v => modify (on_self (user.set_is_admin v))
  | kw_name v => name_setter v
  | kw_emailaddress v => emailaddress_setter v
  | kw_password v => password_setter v
  end.

Fixpoint setattrs (kwargs : list kwarg) : M (Ctx user.row) unit :=
  match kwargs with
  | [] => ret tt
  | k :: kwargs' => setattr k ;; setattrs kwargs'
  end.

(** [User.__init__(self, **kwargs)]: the constructor of the declarative
    base, which assigns every keyword argument in turn to a fresh
    instance. *)
Definition __init__ (kwargs : list kwarg) (w : World) : result user.row :=
  match call (setattrs kwargs) user.blank w with
  | (Ok _, c) => Ok (self c)
  | (Raise e, _) => Raise e
  end.

End Werkzeug.

(** [User.seen] *)
Definition seen : M (Ctx user.row) user.row :=
  now <- utcnow ;;
  modify (on_self (user.set_last_seen (Some now))) ;;
  save.

(** [User.promote_to_admin] *)
Definition promote_to_admin : M (Ctx user.row) user.row :=
  modify (on_self (user.set_is_admin (Some true))) ;;
  save.

Section Flask.

(** [flask.url_for(endpoint, **values)], an external function. *)
Variable url_for : string -> dict -> string.

(** [self.todolists]: the rows of [todolist] whose [creator] is this
    user's [username].  The user is taken to be a row of the store; on a
    user that was never saved, the library's [count()] is 0 whatever the
    table holds. *)
Definition todolists_of : M (Ctx user.row) (list todolist.row) :=
  gets (fun c =>
          filter (fun l => sql_eq_str (todolist.creator l)
                                      (user.username (self c)))
                 (todolists (store (world c)))).

(** [User.to_dict] *)
Definition to_dict : M (Ctx user.row) dict :=
  u <- gets (@self user.row) ;;
  lists <- todolists_of ;;
  ret [("username", of_str (user.username u));
       ("user_url",
        PyStr (url_for "api.get_user"
                 [("username", of_str (user.username u));
                  ("_external", PyBool true)]));
       ("member_since", of_datetime (user.member_since u));
       ("last_seen", of_datetime (user.last_seen u));
       ("todolists",
        PyStr (url_for "api.get_user_todolists"
                 [("username", of_str (user.username u));
                  ("_external", PyBool true)]));
       ("todolist_count", PyInt (Z.of_nat (List.length lists)))].

End Flask.

End User.

(** ** [load_user] *)

Section LoginManager.

(** The builtin [int] on a [str]: the integer it denotes, or
    [ValueError]. *)
Variable int : string -> result Z.

(** [load_user(user_id)]: [User.query.get(int(user_id))]. *)
Definition load_user (user_id : string) (w : World)
  : result (option user.row) :=
  match int user_id with
  | Ok ident => Ok (query_get ident (store w))
  | Raise e => Raise e
  end.

End LoginManager.

(** ** [class TodoList] *)

(** A query over the [todo] table, as the dynamic relationship
    [TodoList.todos] hands it out. *)
Module Query.

Definition t : Type := list todo.row.

(** [filter_by(is_finished=b)]: the SQL test [is_finished = b], which a
    [NULL] does not pass. *)
Definition filter_by_is_finished (b : bool) (q : t) : t :=
  filter (fun r => sql_eq_bool (todo.is_finished r) (Some b)) q.

(** [order_by(None)] drops the ordering, not the rows. *)
Definition order_by_None (q : t) : t := q.

(** [count()] *)
Definition count (q : t) : nat := List.length q.

End Query.

Module TodoList.

(** [x or y] for a [str] or [None] on the left. *)
Definition or_str (x : option string) (y : string) : string :=
  match x with
  | Some s => if truthy_str x then s else y
  | None => y
  end.

(** [x or y] for a [datetime] or [None] on the left; every [datetime] is
    true. *)
Definition or_datetime (x : option datetime) (y : datetime) : datetime :=
  match x with
  | Some d => d
  | None => y
  end.

(** [TodoList.__init__(self, title=None, creator=None, created_at=None)] *)
Definition __init__ (title : option string) (creator : option string)
    (created_at : option datetime) (w : World) : todolist.row :=
  todolist.mk None
    (Some (or_str title "untitled"))
    (Some (or_datetime created_at (clock w)))
    creator.

(** [TodoList.is_valid_title] *)
Definition is_valid_title (list_title : option string) : bool :=
  check_length list_title 128.

(** [TodoList.change_title] *)
Definition change_title (new_title : option string)
  : M (Ctx todolist.row) unit :=
  modify (on_self (todolist.set_title new_title)) ;;
  _ <- save ;;
  ret tt.

(** [self.todos]: the rows of [todo] whose [todolist_id] is this list's
    key.  The list is taken to be a row of the store; on a list that was
    never saved, the library's [order_by] and [filter_by] raise
    [DetachedInstanceError]. *)
Definition todos_of : M (Ctx todolist.row) Query.t :=
  gets (fun c =>
          filter (fun r => sql_eq_int (todo.todolist_id r)
                                      (todolist.id (self c)))
                 (todos (store (world c)))).

(** [TodoList.count_todos] *)
Definition count_todos : M (Ctx todolist.row) nat :=
  q <- todos_of ;;
  ret (Query.count (Query.order_by_None q)).

(** [TodoList.count_finished] *)
Definition count_finished : M (Ctx todolist.row) nat :=
  q <- todos_of ;;
  ret (Query.count (Query.filter_by_is_finished true q)).

(** [TodoList.count_open] *)
Definition count_open : M (Ctx todolist.row) nat :=
  q <- todos_of ;;
  ret (Query.count (Query.filter_by_is_finished false q)).

(** The keyword arguments of [TodoList( **model_dict)]; a missing key is
    [None], the default of the parameter. *)
Record model_dict : Type := mk_dict {
  title : option string;
  creator : option string;
  created_at : option datetime
}.

(** [TodoList( **model_dict)] *)
Definition construct (k : model_dict) (w : World) : result todolist.row :=
  Ok (__init__ (title k) (creator k) (created_at k) w).

Section Flask.

(** [flask.url_for(endpoint, **values)], an external function. *)
Variable url_for : string -> dict -> string.

(** [TodoList.to_dict] *)
Definition to_dict : M (Ctx todolist.row) dict :=
  l <- gets (@self todolist.row) ;;
  let todos_url :=
    if truthy_str (todolist.creator l)
    then url_for "api.get_user_todolist_todos"
           [("todolist_id", of_int (todolist.id l));
            ("username", of_str (todolist.creator l));
            ("_external", PyBool true)]
    else url_for "api.get_todolist_todos"
           [("todolist_id", of_int (todolist.id l));
            ("_external", PyBool true)] in
  total <- count_todos ;;
  open <- count_open ;;
  done <- count_finished ;;
  ret [("title", of_str (todolist.title l));
       ("creator", of_str (todolist.creator l));
       ("created_at", of_datetime (todolist.created_at l));
       ("total_todo_count", PyInt (Z.of_nat total));
       ("open_todo_count", PyInt (Z.of_nat open));
       ("finished_todo_count", PyInt (Z.of_nat done));
       ("todos", PyStr todos_url)].

End Flask.

End TodoList.

(** ** [class Todo] *)

Module Todo.

(** [Todo.__init__(self, description, todolist_id, creator=None,
    created_at=None)].  The attributes [finished_at] and [is_finished] are
    not assigned: they read [None] until an INSERT applies the column
    defaults. *)
Definition __init__ (description : option string) (todolist_id : option Z)
    (creator : option string) (created_at : option datetime) (w : World)
  : todo.row :=
  todo.mk None
    description
    (Some (TodoList.or_datetime created_at (clock w)))
    None
    None
    creator
    todolist_id.

(** [Todo.status] *)
Definition status (t : todo.row) : string :=
  if truthy_bool (todo.is_finished t) then "finished" else "open".

(** [Todo.finished] *)
Definition finished : M (Ctx todo.row) unit :=
  modify (on_self (todo.set_is_finished (Some true))) ;;
  now <- utcnow ;;
  modify (on_self (todo.set_finished_at (Some now))) ;;
  _ <- save ;;
  ret tt.

(** [Todo.reopen] *)
Definition reopen : M (Ctx todo.row) unit :=
  modify (on_self (todo.set_is_finished (Some false))) ;;
  modify (on_self (todo.set_finished_at None)) ;;
  _ <- save ;;
  ret tt.

(** [Todo.to_dict] *)
Definition to_dict : M (Ctx todo.row) dict :=
  t <- gets (@self todo.row) ;;
  ret [("description", of_str (todo.description t));
       ("creator", of_str (todo.creator t));
       ("created_at", of_datetime (todo.created_at t));
       ("status", PyStr (status t))].

(** The keyword arguments of [Todo( **model_dict)]: the two required
    parameters, and the two optional ones, where a missing key is [None]. *)
Record model_dict : Type := mk_dict {
  description : option string;
  todolist_id : option Z;
  creator : option string;
  created_at : option datetime
}.

(** [Todo( **model_dict)] *)
Definition construct (k : model_dict) (w : World) : result todo.row :=
  Ok (__init__ (description k) (todolist_id k) (creator k) (created_at k) w).

End Todo.

(** ** Notions the properties are stated with *)

(** Does the string hold a white-space character? *)
Fixpoint has_space (s : string) : bool :=
  match s with
  | EmptyString => false
  | String c s' => is_space c || has_space s'
  end.

(** A non-empty run of characters none of which is white space. *)
Definition nonspace_word (s : string) : Prop :=
  s <> EmptyString /\ has_space s = false.

(** The shape [nonspace@nonspace.nonspace] of an email address. *)
Definition email_shape (s : string) : Prop :=
  exists x y z : string,
    nonspace_word x /\ nonspace_word y /\ nonspace_word z /\
    s = (x ++ "@" ++ y ++ "." ++ z)%string.

(** Number of elements of a list that pass a test. *)
Fixpoint count_if {A : Type} (p : A -> bool) (l : list A) : nat :=
  match l with
  | [] => 0
  | x :: l' => (if p x then 1 else 0) + count_if p l'
  end.

(** Number of stored users with a given username. *)
Definition count_username (n : string) (rows : list user.row) : nat :=
  count_if (fun r => sql_eq_str (user.username r) (Some n)) rows.

(** The todo belongs to the list. *)
Definition belongs_to (l : todolist.row) (t : todo.row) : bool :=
  sql_eq_int (todo.todolist_id t) (todolist.id l).

(** The todo is finished: [is_finished] is true. *)
Definition is_done (t : todo.row) : bool :=
  match todo.is_finished t with
  | Some true => true
  | _ => false
  end.

(** The flag [is_finished] of the todo is [NULL]. *)
Definition is_null_flag (t : todo.row) : bool :=
  match todo.is_finished t with
  | None => true
  | Some _ => false
  end.

(** No stored todo has a [NULL] in [is_finished]. *)
Definition is_finished_not_null (d : DB) : Prop :=
  Forall (fun t => todo.is_finished t <> None) (todos d).

(** The invariant of a todo: [finished_at] is set exactly when
    [is_finished] is true. *)
Definition finished_at_iff_is_finished (t : todo.row) : Prop :=
  todo.finished_at t <> None <-> todo.is_finished t = Some true.

(** The object and the world a call leaves behind. *)
Definition self_after {A B : Type} (r : result B * Ctx A) : A := self (snd r).
Definition world_after {A B : Type} (r : result B * Ctx A) : World :=
  world (snd r).

(** Every row has a primary key, and no two rows share one. *)
Definition keys_ok {A : Type} `{Model A} (rows : list A) : Prop :=
  Forall (fun r => pk r <> None) rows /\ NoDup (map pk rows).

(** Two users collide on a unique column. *)
Definition user_clash (a b : user.row) : bool :=
  sql_eq_str (user.username a) (user.username b)
  || sql_eq_str (user.email a) (user.email b).

(** No two stored users share a username or an email. *)
Definition users_unique (rows : list user.row) : Prop :=
  ForallOrdPairs (fun a b => user_clash a b = false) rows.

(** The keyword argument passes the validation of its setter; a column
    is assigned without validation. *)
Definition kwarg_ok (generate_password_hash : string -> string -> string)
    (w : World) (k : User.kwarg) : bool :=
  match k with
  | User.kw_name v => check_length v 64 && User.matches USERNAME_REGEX v
  | User.kw_emailaddress v => check_length v 64 && User.matches EMAIL_REGEX v
  | User.kw_password v =>
      truthy_str v
      && check_length
           (Some (generate_password_hash (entropy w) (str_of v))) 128
  | _ => true
  end.

(** *** A stand-in for the password library

    A toy scheme that instantiates the library's contract: the hash is the
    password with the lowest bit of every character flipped, behind the
    prefix [toy$$].  It is no hash function; it only shows that the
    contract can be met. *)
Definition flip (c : ascii) : ascii :=
  match c with
  | Ascii b0 b1 b2 b3 b4 b5 b6 b7 => Ascii (negb b0) b1 b2 b3 b4 b5 b6 b7
  end.

Fixpoint scramble (s : string) : string :=
  match s with
  | EmptyString => EmptyString
  | String c s' => String (flip c) (scramble s')
  end.

Definition toy_generate (salt password : string) : string :=
  ("toy$$" ++ scramble password)%string.

Definition toy_check (pwhash password : string) : bool :=
  String.eqb pwhash ("toy$$" ++ scramble password)%string.

(** *** Stand-ins for [int] and [url_for]

    A reader of decimal digits and a URL builder that keeps the endpoint
    only; they instantiate the two external functions. *)
Definition digit_of (c : ascii) : option Z :=
  let n := nat_of_ascii c in
  if ((48 <=? n) && (n <=? 57))%nat then Some (Z.of_nat (n - 48)) else None.

Fixpoint digits_value (acc : Z) (s : string) : option Z :=
  match s with
  | EmptyString => Some acc
  | String c s' =>
      match digit_of c with
      | Some d => digits_value (10 * acc + d)%Z s'
      | None => None
      end
  end.

Definition int_of_digits (s : string) : result Z :=
  match s with
  | EmptyString => Raise (ValueError "invalid literal for int()")
  | String _ _ =>
      match digits_value 0%Z s with
      | Some n => Ok n
      | None => Raise (ValueError "invalid literal for int()")
      end
  end.

Definition toy_url_for (endpoint : string) (values : dict) : string :=
  ("http://localhost/" ++ endpoint)%string.

(** *** Sample data *)

Definition sample_world : World := mkWorld empty_db 1000%Z "Zk3vN0qa".

Definition bob : user.row := user.set_username (Some "bob") user.blank.

(** The world after [bob.save()]. *)
Definition world_with_bob : World := world_after (call save bob sample_world).

(** [TodoList("groceries").save()] in the sample world. *)
Definition saved_groceries : result todolist.row * Ctx todolist.row :=
  call save (TodoList.__init__ (Some "groceries") None None sample_world)
       sample_world.

Definition groceries : todolist.row := self_after saved_groceries.

Definition buy (what : string) (w : World) : todo.row :=
  Todo.__init__ (Some what) (todolist.id groceries) None None w.

(** The world after saving the list [groceries] with three todos, the
    first of which is then finished. *)
Definition world_with_todos : World :=
  let w1 := world_after saved_groceries in
  let r2 := call save (buy "milk" w1) w1 in
  let r3 := call save (buy "eggs" (world_after r2)) (world_after r2) in
  let r4 := call save (buy "tea" (world_after r3)) (world_after r3) in
  world_after (call Todo.finished (self_after r2) (world_after r4)).

Definition alice : user.row := user.set_username (Some "alice") user.blank.

(** The world after [bob.save()] and [alice.save()]. *)
Definition world_with_two_users : World :=
  world_after (call save alice world_with_bob).

Definition username_with_newline : string := String.append "bob" (String LF "").

Definition email_with_newline : string :=
  String.append "bob@example.org" (String LF "").

(** [bob] as the store holds him after [bob.save()]. *)
Definition stored_bob : user.row := self_after (call save bob sample_world).

(** The world after [tea = Todo.query.get(3)], [tea.is_finished = None] and
    [tea.save()] in [world_with_todos]: the column is nullable, and the
    update writes the [NULL]. *)
Definition world_with_null_flag : World :=
  match query_get 3%Z (store world_with_todos) with
  | Some tea =>
      world_after (call save (todo.set_is_finished None tea) world_with_todos)
  | None => world_with_todos
  end.

(** *** A stand-in for the password library that keys its digest as HMAC does

    The library derives a hash with HMAC keyed by the password, and HMAC
    extends a key shorter than its block of 64 bytes with zero bytes
    (RFC 2104, step 1), so that a password and the same password followed
    by zero bytes are one key.  The stand-in keeps that step and leaves the
    digest as the toy scheme has it; a key longer than the block, which
    HMAC hashes first, is kept as it is. *)
Definition NUL : ascii := Ascii.zero.

Fixpoint zeros (n : nat) : string :=
  match n with
  | O => EmptyString
  | S n' => String NUL (zeros n')
  end.

Definition hmac_key (password : string) : string :=
  (password ++ zeros (64 - String.length password))%string.

Definition hmac_generate (salt password : string) : string :=
  ("hmac$$" ++ scramble (hmac_key password))%string.

Definition hmac_check (pwhash password : string) : bool :=
  String.eqb pwhash ("hmac$$" ++ scramble (hmac_key password))%string.

Definition hunter2_nul : string := String.append "hunter2" (String NUL "").

(** * Properties *)

(** ** The session and [BaseModel.save] *)

Section BaseModelFacts.
Context {A : Type} `{Model A}.

Lemma insert_raises_only_IntegrityError (o : A) (d : DB) (e : exn) :
  insert o d = Raise e -> e = IntegrityError.
Proof.
  unfold insert. destruct (unique_ok (table d) o); congruence.
Qed.

Lemma flush_raises_only_IntegrityError (now : datetime) (o : A) (d : DB)
    (e : exn) :
  flush now o d = Raise e -> e = IntegrityError.
Proof.
  unfold flush, update.
  destruct (pk o) as [i|].
  - destruct (existsb (has_pk i) (table d)).
    + destruct (unique_ok _ o); congruence.
    + apply insert_raises_only_IntegrityError.
  - apply insert_raises_only_IntegrityError.
Qed.

(** [save] unfolded: a successful flush leaves the object as written, a
    rejected one is rolled back. *)
Lemma save_unfold (c : Ctx A) :
  save c =
  match flush (clock (world c)) (self c) (store (world c)) with
  | Ok (o, d) => (Ok o, mkCtx o false (set_store d (world c)))
  | Raise _ =>
      let o := reload (store (world c)) (self c) in
      (Ok o, mkCtx o false (world c))
  end.
Proof.
  unfold save, bind, __commit, try_except, session_add, session_commit,
    session_rollback, modify, gets; simpl.
  destruct (flush _ _ _) as [[o d]|e] eqn:E; simpl; [reflexivity|].
  apply flush_raises_only_IntegrityError in E. subst e. reflexivity.
Qed.

(** [save] returns the object and never raises; the session holds nothing
    unflushed afterwards. *)
Lemma save_returns (c : Ctx A) :
  fst (save c) = Ok (self (snd (save c))) /\ pending (snd (save c)) = false.
Proof.
  rewrite save_unfold.
  destruct (flush _ _ _) as [[o d]|e]; simpl; auto.
Qed.

Lemma save_keeps_clock (c : Ctx A) :
  clock (world (snd (save c))) = clock (world c).
Proof.
  rewrite save_unfold.
  destruct (flush _ _ _) as [[o d]|e]; simpl; auto.
Qed.

End BaseModelFacts.

Lemma count_if_pos_existsb {A : Type} (p : A -> bool) (l : list A) :
  (0 < count_if p l)%nat -> existsb p l = true.
Proof.
  induction l as [|x l IH]; simpl; [lia|].
  destruct (p x); simpl; auto.
Qed.

Lemma count_if_length_filter {A : Type} (p : A -> bool) (l : list A) :
  List.length (filter p l) = count_if p l.
Proof.
  induction l as [|x l IH]; simpl; [reflexivity|].
  destruct (p x); simpl; rewrite IH; reflexivity.
Qed.

(** A new user whose username is already stored is rejected by the
    store. *)
Lemma flush_duplicate_username (u : user.row) (d : DB) (now : datetime)
    (n : string) :
  user.id u = None ->
  user.username u = Some n ->
  (0 < count_username n (users d))%nat ->
  flush now u d = Raise IntegrityError.
Proof.
  intros Hid Hn Hc.
  unfold flush. simpl. rewrite Hid.
  unfold insert. simpl. rewrite Hn.
  apply count_if_pos_existsb in Hc.
  assert (E : existsb
                (fun r => sql_eq_str (user.username r) (Some n)
                          || sql_eq_str (user.email r) (user.email u))
                (users d) = true).
  { apply existsb_exists. apply existsb_exists in Hc.
    destruct Hc as [r [Hin Hr]]. exists r. split; [exact Hin|].
    rewrite Hr. reflexivity. }
  rewrite E. reflexivity.
Qed.

(** C1.  Saving an entity that the store rejects with an integrity error
    does not raise: [save] returns normally, the session is rolled back and
    the store is left as it was.  In particular, saving a new user whose
    username is already stored once is rejected in this way, and exactly one
    row with that username exists afterwards. *)
Theorem save_duplicate_is_suppressed :
  (forall (A : Type) (MA : Model A) (o : A) (w : World),
      flush (clock w) o (store w) = Raise IntegrityError ->
      exists o' : A, call save o w = (Ok o', mkCtx o' false w))
  /\
  (forall (u : user.row) (w : World) (n : string),
      user.id u = None ->
      user.username u = Some n ->
      count_username n (users (store w)) = 1%nat ->
      flush (clock w) u (store w) = Raise IntegrityError
      /\ call save u w = (Ok u, mkCtx u false w)
      /\ count_username n (users (store (world_after (call save u w))))
         = 1%nat).
Proof.
  split.
  - intros A MA o w E.
    exists (reload (store w) o).
    unfold call. rewrite save_unfold. simpl. rewrite E. reflexivity.
  - intros u w n Hid Hn Hc.
    assert (E : flush (clock w) u (store w) = Raise IntegrityError).
    { apply flush_duplicate_username with (n := n); auto. lia. }
    assert (S : call save u w = (Ok u, mkCtx u false w)).
    { unfold call. rewrite save_unfold. simpl. rewrite E.
      unfold reload. simpl. rewrite Hid. reflexivity. }
    split; [exact E|]. split; [exact S|].
    rewrite S. exact Hc.
Qed.

Lemma save_duplicate_is_suppressed_witness :
  count_username "bob" (users (store world_with_bob)) = 1%nat
  /\ call save bob world_with_bob = (Ok bob, mkCtx bob false world_with_bob)
  /\ count_username "bob"
       (users (store (world_after (call save bob world_with_bob)))) = 1%nat.
Proof.
  split; [reflexivity|].
  apply (proj2 save_duplicate_is_suppressed bob world_with_bob "bob");
    reflexivity.
Defined.

(** ** The counts of a [TodoList] *)

Lemma count_if_filter {A : Type} (p q : A -> bool) (l : list A) :
  count_if p (filter q l) = count_if (fun x => q x && p x) l.
Proof.
  induction l as [|x l IH]; simpl; [reflexivity|].
  destruct (q x); simpl; rewrite IH; reflexivity.
Qed.

Lemma count_if_ext {A : Type} (p q : A -> bool) (l : list A) :
  (forall x, In x l -> p x = q x) -> count_if p l = count_if q l.
Proof.
  induction l as [|x l IH]; simpl; intros E; [reflexivity|].
  rewrite (E x), IH; auto.
Qed.

Lemma filter_by_true_is_done (t : todo.row) :
  sql_eq_bool (todo.is_finished t) (Some true) = is_done t.
Proof.
  unfold is_done. destruct (todo.is_finished t) as [[|]|]; reflexivity.
Qed.

(** Among todos whose flag is not [NULL], the open ones and the finished
    ones of a list add up to all of its todos. *)
Lemma count_open_plus_finished (p : todo.row -> bool) (rows : list todo.row) :
  Forall (fun t => todo.is_finished t <> None) rows ->
  (count_if (fun t => p t && sql_eq_bool (todo.is_finished t) (Some false)) rows
   + count_if (fun t => p t && is_done t) rows
   = count_if p rows)%nat.
Proof.
  induction 1 as [|t rows Ht _ IH]; simpl; [reflexivity|].
  rewrite <- IH. unfold is_done.
  destruct (p t); simpl; [|lia].
  destruct (todo.is_finished t) as [[|]|]; simpl; try lia.
  congruence.
Qed.

Lemma count_todos_run (l : todolist.row) (w : World) :
  call TodoList.count_todos l w
  = (Ok (count_if (belongs_to l) (todos (store w))), mkCtx l false w).
Proof.
  unfold call, TodoList.count_todos, TodoList.todos_of, bind, gets, ret,
    Query.count, Query.order_by_None; simpl.
  rewrite count_if_length_filter. reflexivity.
Qed.

Lemma count_finished_run (l : todolist.row) (w : World) :
  call TodoList.count_finished l w
  = (Ok (count_if (fun t => belongs_to l t && is_done t) (todos (store w))),
     mkCtx l false w).
Proof.
  unfold call, TodoList.count_finished, TodoList.todos_of, bind, gets, ret,
    Query.count, Query.filter_by_is_finished; simpl.
  rewrite count_if_length_filter, count_if_filter.
  erewrite count_if_ext; [reflexivity|].
  intros t _. simpl. rewrite filter_by_true_is_done. reflexivity.
Qed.

Lemma count_open_run (l : todolist.row) (w : World) :
  call TodoList.count_open l w
  = (Ok (count_if (fun t => belongs_to l t
                            && sql_eq_bool (todo.is_finished t) (Some false))
                  (todos (store w))),
     mkCtx l false w).
Proof.
  unfold call, TodoList.count_open, TodoList.todos_of, bind, gets, ret,
    Query.count, Query.filter_by_is_finished; simpl.
  rewrite count_if_length_filter, count_if_filter. reflexivity.
Qed.

(** Of the todos that [p] selects, those with a false flag, those with a
    true flag and those with a [NULL] flag add up to all of them. *)
Lemma count_open_finished_null (p : todo.row -> bool) (rows : list todo.row) :
  (count_if (fun t => p t && sql_eq_bool (todo.is_finished t) (Some false)) rows
   + count_if (fun t => p t && is_done t) rows
   + count_if (fun t => p t && is_null_flag t) rows
   = count_if p rows)%nat.
Proof.
  induction rows as [|t rows IH]; simpl; [reflexivity|].
  rewrite <- IH. unfold is_done, is_null_flag.
  destruct (p t); simpl; [|lia].
  destruct (todo.is_finished t) as [[|]|]; simpl; lia.
Qed.

(** C2, as stated, fails: once the flag of one of the three todos of the
    stored list [groceries] has been set to [NULL], the list has 3 todos
    of which 1 is finished, and [count_open()] returns 1, not 3 - 1; the
    open and the finished todos no longer add up to all of them. *)
Lemma todolist_counts_with_null_flag :
  In groceries (todolists (store world_with_null_flag))
  /\ count_if (belongs_to groceries) (todos (store world_with_null_flag))
     = 3%nat
  /\ count_if (fun t => belongs_to groceries t && is_done t)
       (todos (store world_with_null_flag)) = 1%nat
  /\ fst (call TodoList.count_todos groceries world_with_null_flag)
     = Ok 3%nat
  /\ fst (call TodoList.count_finished groceries world_with_null_flag)
     = Ok 1%nat
  /\ fst (call TodoList.count_open groceries world_with_null_flag)
     = Ok 1%nat
  /\ fst (call TodoList.count_open groceries world_with_null_flag)
     <> Ok (3 - 1)%nat
  /\ (1 + 1 <> 3)%nat.
Proof.
  split; [left; reflexivity|].
  repeat (split; [reflexivity|]).
  split; [|lia].
  vm_compute. discriminate.
Qed.

(** C2, amended.  For a stored todo list with [N] associated todos of
    which [K] are finished and [Z] have a [NULL] flag, [count_todos()]
    returns [N], [count_finished()] returns [K] and [count_open()] returns
    [N - K - Z]; the three classes add up to [count_todos()].  Hence, when
    no todo of the list has a [NULL] flag, [count_open()] returns [N - K]
    and [count_open() + count_finished() = count_todos()]. *)
Theorem todolist_counts (l : todolist.row) (w : World) (N K Z : nat) :
  In l (todolists (store w)) ->
  count_if (belongs_to l) (todos (store w)) = N ->
  count_if (fun t => belongs_to l t && is_done t) (todos (store w)) = K ->
  count_if (fun t => belongs_to l t && is_null_flag t) (todos (store w)) = Z ->
  exists n_todos n_finished n_open : nat,
    fst (call TodoList.count_todos l w) = Ok n_todos
    /\ fst (call TodoList.count_finished l w) = Ok n_finished
    /\ fst (call TodoList.count_open l w) = Ok n_open
    /\ n_todos = N
    /\ n_finished = K
    /\ n_open = (N - K - Z)%nat
    /\ (n_open + n_finished + Z = n_todos)%nat
    /\ (Z = 0%nat ->
        n_open = (N - K)%nat /\ (n_open + n_finished = n_todos)%nat).
Proof.
  intros _ HN HK HZ.
  pose proof (count_open_finished_null (belongs_to l) (todos (store w)))
    as Hsum.
  rewrite HN, HK, HZ in Hsum.
  rewrite count_todos_run, count_finished_run, count_open_run; simpl.
  rewrite HN, HK.
  eexists _, _, _.
  repeat split; try reflexivity; lia.
Qed.

Lemma todolist_counts_witness :
  In groceries (todolists (store world_with_todos))
  /\ exists n_todos n_finished n_open : nat,
      fst (call TodoList.count_todos groceries world_with_todos) = Ok n_todos
      /\ fst (call TodoList.count_finished groceries world_with_todos)
         = Ok n_finished
      /\ fst (call TodoList.count_open groceries world_with_todos) = Ok n_open
      /\ n_todos = 3%nat
      /\ n_finished = 1%nat
      /\ n_open = (3 - 1 - 0)%nat
      /\ (n_open + n_finished + 0 = n_todos)%nat
      /\ (0%nat = 0%nat ->
          n_open = (3 - 1)%nat /\ (n_open + n_finished = n_todos)%nat).
Proof.
  assert (Hin : In groceries (todolists (store world_with_todos))).
  { left. reflexivity. }
  split; [exact Hin|].
  apply (todolist_counts groceries world_with_todos Hin); reflexivity.
Defined.

(** ** The life cycle of a [Todo] *)

(** The [todo] table has no constraint a flush could break: the object is
    written, with [finished_at] as it is and [is_finished] as it is unless
    the INSERT default fills it in. *)
Lemma todo_flush_ok (now : datetime) (t : todo.row) (d : DB) :
  exists (t' : todo.row) (d' : DB),
    flush now t d = Ok (t', d')
    /\ todo.finished_at t' = todo.finished_at t
    /\ (todo.is_finished t' = todo.is_finished t
        \/ todo.is_finished t = None /\ todo.is_finished t' = Some false)
    /\ (todo.is_finished t' <> None \/ todo.id t <> None)
    /\ (forall r, In r (todos d') -> In r (todos d) \/ r = t').
Proof.
  assert (Hins : forall o : todo.row,
             insert o d = Ok (o, set_table (table d ++ [o]) d)) by reflexivity.
  assert (Hdef : forall o : todo.row,
             todo.is_finished (column_defaults now o) = todo.is_finished o
             \/ todo.is_finished o = None
                /\ todo.is_finished (column_defaults now o) = Some false).
  { intros o. simpl. destruct (todo.is_finished o); simpl; auto. }
  assert (Hnn : forall o : todo.row,
             todo.is_finished (column_defaults now o) <> None).
  { intros o. simpl. destruct (todo.is_finished o); simpl; discriminate. }
  assert (Happ : forall (o r : todo.row),
             In r (todos (set_table (table d ++ [o]) d)) ->
             In r (todos d) \/ r = o).
  { intros o r Hin. simpl in Hin. apply in_app_or in Hin.
    destruct Hin as [Hin|[Hin|[]]]; auto. }
  unfold flush.
  destruct (pk t) as [i|] eqn:Epk.
  - destruct (existsb (has_pk i) (table d)).
    + exists t. eexists. split; [reflexivity|].
      split; [reflexivity|]. split; [auto|].
      split; [right; simpl in Epk; congruence|].
      intros r Hin. simpl in Hin. apply in_map_iff in Hin.
      destruct Hin as [x [Hx Hin]].
      destruct (has_pk i x); subst; auto.
    + eexists. eexists. split; [apply Hins|].
      split; [reflexivity|]. split; [apply Hdef|].
      split; [left; apply Hnn|]. apply Happ.
  - eexists. eexists. split; [apply Hins|].
    split; [reflexivity|]. split; [apply (Hdef t)|].
    split; [left; apply (Hnn t)|]. apply Happ.
Qed.

(** Saving a todo always commits. *)
Lemma todo_save_run (c : Ctx todo.row) :
  exists (t' : todo.row) (d' : DB),
    save c = (Ok t', mkCtx t' false (set_store d' (world c)))
    /\ todo.finished_at t' = todo.finished_at (self c)
    /\ (todo.is_finished t' = todo.is_finished (self c)
        \/ todo.is_finished (self c) = None
           /\ todo.is_finished t' = Some false)
    /\ (todo.is_finished t' <> None \/ todo.id (self c) <> None)
    /\ (forall r, In r (todos d') ->
                  In r (todos (store (world c))) \/ r = t').
Proof.
  destruct (todo_flush_ok (clock (world c)) (self c) (store (world c)))
    as [t' [d' [E P]]].
  exists t', d'. split; [|exact P].
  rewrite save_unfold, E. reflexivity.
Qed.

Lemma finished_run (t : todo.row) (w : World) :
  exists (t' : todo.row) (d' : DB),
    call Todo.finished t w = (Ok tt, mkCtx t' false (set_store d' w))
    /\ todo.is_finished t' = Some true
    /\ todo.finished_at t' = Some (clock w)
    /\ (forall r, In r (todos d') -> In r (todos (store w)) \/ r = t').
Proof.
  pose (t1 := todo.set_finished_at (Some (clock w))
                (todo.set_is_finished (Some true) t)).
  destruct (todo_save_run (mkCtx t1 false w))
    as [t' [d' [E [Hat [Hfin [_ Hin]]]]]].
  exists t', d'.
  split; [|split; [|split]].
  - unfold call, Todo.finished, bind, modify, utcnow, gets, on_self, ret.
    simpl. fold t1. rewrite E. reflexivity.
  - simpl in Hfin. destruct Hfin as [Hfin|[Hn _]]; [exact Hfin|discriminate].
  - exact Hat.
  - exact Hin.
Qed.

Lemma reopen_run (t : todo.row) (w : World) :
  exists (t' : todo.row) (d' : DB),
    call Todo.reopen t w = (Ok tt, mkCtx t' false (set_store d' w))
    /\ todo.is_finished t' = Some false
    /\ todo.finished_at t' = None
    /\ (forall r, In r (todos d') -> In r (todos (store w)) \/ r = t').
Proof.
  pose (t1 := todo.set_finished_at None
                (todo.set_is_finished (Some false) t)).
  destruct (todo_save_run (mkCtx t1 false w))
    as [t' [d' [E [Hat [Hfin [_ Hin]]]]]].
  exists t', d'.
  split; [|split; [|split]].
  - unfold call, Todo.reopen, bind, modify, on_self, ret.
    simpl. fold t1. rewrite E. reflexivity.
  - simpl in Hfin. destruct Hfin as [Hfin|[Hn _]]; [exact Hfin|discriminate].
  - exact Hat.
  - exact Hin.
Qed.

(** The operations of the module keep [NULL] out of the stored flags:
    saving a todo that is new or whose flag is set, finishing a todo and
    reopening a todo. *)
Lemma save_keeps_is_finished_not_null (t : todo.row) (w : World) :
  is_finished_not_null (store w) ->
  todo.id t = None \/ todo.is_finished t <> None ->
  is_finished_not_null (store (world_after (call save t w))).
Proof.
  intros Hwf Ht.
  destruct (todo_save_run (mkCtx t false w))
    as [t' [d' [E [_ [Hfin [Hnn Hin]]]]]].
  unfold world_after, call. rewrite E. simpl.
  unfold is_finished_not_null in *. rewrite Forall_forall in *.
  intros r Hr. destruct (Hin r Hr) as [Hold|Hnew]; [auto|].
  subst r. simpl in *.
  destruct Hnn as [Hnn|Hnn]; [exact Hnn|].
  destruct Ht as [Ht|Ht]; [contradiction|].
  destruct Hfin as [Hfin|[Hfin _]]; congruence.
Qed.

(** Saving a user or a todo list leaves the [todo] table alone. *)
Lemma user_save_keeps_todos (u : user.row) (w : World) :
  todos (store (world_after (call save u w))) = todos (store w).
Proof.
  unfold world_after, call. rewrite save_unfold. simpl.
  unfold flush, insert, update.
  destruct (pk u) as [i|];
    [destruct (existsb (has_pk i) (table (store w)))|];
    destruct (unique_ok _ _); reflexivity.
Qed.

Lemma todolist_save_keeps_todos (l : todolist.row) (w : World) :
  todos (store (world_after (call save l w))) = todos (store w).
Proof.
  unfold world_after, call. rewrite save_unfold. simpl.
  unfold flush, insert, update.
  destruct (pk l) as [i|];
    [destruct (existsb (has_pk i) (table (store w)))|];
    reflexivity.
Qed.

Lemma finished_keeps_is_finished_not_null (t : todo.row) (w : World) :
  is_finished_not_null (store w) ->
  is_finished_not_null (store (world_after (call Todo.finished t w))).
Proof.
  intros Hwf.
  destruct (finished_run t w) as [t' [d' [E [Hfin [_ Hin]]]]].
  unfold world_after. rewrite E. simpl.
  unfold is_finished_not_null in *. rewrite Forall_forall in *.
  intros r Hr. destruct (Hin r Hr) as [Hold|Hnew]; [auto|].
  subst r. congruence.
Qed.

Lemma reopen_keeps_is_finished_not_null (t : todo.row) (w : World) :
  is_finished_not_null (store w) ->
  is_finished_not_null (store (world_after (call Todo.reopen t w))).
Proof.
  intros Hwf.
  destruct (reopen_run t w) as [t' [d' [E [Hfin [_ Hin]]]]].
  unfold world_after. rewrite E. simpl.
  unfold is_finished_not_null in *. rewrite Forall_forall in *.
  intros r Hr. destruct (Hin r Hr) as [Hold|Hnew]; [auto|].
  subst r. congruence.
Qed.

Lemma save_preserves_invariant (t : todo.row) (w : World) :
  finished_at_iff_is_finished t ->
  finished_at_iff_is_finished (self_after (call save t w)).
Proof.
  intros [H1 H2].
  destruct (todo_save_run (mkCtx t false w)) as [t' [d' [E [Hat [Hfin _]]]]].
  unfold self_after, call. rewrite E. simpl in *.
  unfold finished_at_iff_is_finished. rewrite Hat.
  destruct Hfin as [Hfin|[Hn Hfin]]; rewrite Hfin.
  - split; assumption.
  - split; intros X.
    + apply H1 in X. congruence.
    + discriminate.
Qed.

(** C3.  The invariant "[finished_at] is set if and only if [is_finished]
    is true" holds for a newly constructed todo, whose [is_finished] is not
    true (it reads false once the todo is saved) and whose [finished_at] is
    null; it holds after [finished()], which sets both, and after
    [reopen()], which clears both; and [save()] preserves it. *)
Theorem todo_invariant :
  (forall (description : option string) (todolist_id : option Z)
          (creator : option string) (created_at : option datetime)
          (w : World),
      let t := Todo.__init__ description todolist_id creator created_at w in
      finished_at_iff_is_finished t
      /\ truthy_bool (todo.is_finished t) = false
      /\ todo.finished_at t = None
      /\ todo.is_finished (self_after (call save t w)) = Some false
      /\ todo.finished_at (self_after (call save t w)) = None)
  /\ (forall (t : todo.row) (w : World),
         let t' := self_after (call Todo.finished t w) in
         finished_at_iff_is_finished t'
         /\ todo.is_finished t' = Some true
         /\ todo.finished_at t' <> None)
  /\ (forall (t : todo.row) (w : World),
         let t' := self_after (call Todo.reopen t w) in
         finished_at_iff_is_finished t'
         /\ todo.is_finished t' = Some false
         /\ todo.finished_at t' = None)
  /\ (forall (t : todo.row) (w : World),
         finished_at_iff_is_finished t ->
         finished_at_iff_is_finished (self_after (call save t w))).
Proof.
  split; [|split; [|split]].
  - intros description todolist_id creator created_at w t.
    assert (Hinv : finished_at_iff_is_finished t).
    { unfold finished_at_iff_is_finished; simpl.
      split; [congruence|discriminate]. }
    split; [exact Hinv|]. split; [reflexivity|]. split; [reflexivity|].
    destruct (todo_save_run (mkCtx t false w))
      as [t' [d' [E [Hat [Hfin [Hnn _]]]]]].
    unfold self_after, call. rewrite E. simpl in *.
    split; [|exact Hat].
    destruct Hfin as [Hfin|[_ Hfin]]; [|exact Hfin].
    destruct Hnn as [Hnn|Hnn]; congruence.
  - intros t w t'. subst t'.
    destruct (finished_run t w) as [t' [d' [E [Hfin [Hat _]]]]].
    unfold self_after. rewrite E. simpl.
    unfold finished_at_iff_is_finished. rewrite Hfin, Hat.
    repeat split; congruence.
  - intros t w t'. subst t'.
    destruct (reopen_run t w) as [t' [d' [E [Hfin [Hat _]]]]].
    unfold self_after. rewrite E. simpl.
    unfold finished_at_iff_is_finished. rewrite Hfin, Hat.
    repeat split; congruence.
  - intros t w. apply save_preserves_invariant.
Qed.

Lemma todo_invariant_witness :
  finished_at_iff_is_finished (buy "milk" sample_world)
  /\ finished_at_iff_is_finished
       (self_after (call save (buy "milk" sample_world) sample_world)).
Proof.
  assert (H : finished_at_iff_is_finished (buy "milk" sample_world)).
  { unfold finished_at_iff_is_finished; simpl.
    split; [congruence|discriminate]. }
  split; [exact H|].
  exact (proj2 (proj2 (proj2 todo_invariant))
           (buy "milk" sample_world) sample_world H).
Defined.

Lemma status_finished_iff (t : todo.row) :
  Todo.status t = "finished" <-> todo.is_finished t = Some true.
Proof.
  unfold Todo.status.
  destruct (todo.is_finished t) as [[|]|]; simpl;
    split; intros X; try reflexivity; discriminate.
Qed.

Lemma status_open_iff (t : todo.row) :
  Todo.status t = "open" <-> todo.is_finished t <> Some true.
Proof.
  unfold Todo.status.
  destruct (todo.is_finished t) as [[|]|]; simpl;
    split; intros X; try reflexivity; try discriminate; congruence.
Qed.

(** C4.  From any state, [finished()] returns normally and leaves
    [is_finished] true and [finished_at] at the current time, and from any
    state, open or finished, [reopen()] returns normally and leaves
    [is_finished] false and [finished_at] null; so does a [reopen()] that
    follows [finished()], and a [finished()] that follows [reopen()].
    Neither transition is guarded.  [status] reads "finished" exactly when
    [is_finished] is true, and "open" otherwise. *)
Theorem finished_reopen_status (t : todo.row) (w : World) :
  let r1 := call Todo.finished t w in
  let r2 := Todo.reopen (snd r1) in
  let r3 := call Todo.reopen t w in
  let r4 := Todo.finished (snd r3) in
  (fst r1 = Ok tt
   /\ todo.is_finished (self_after r1) = Some true
   /\ todo.finished_at (self_after r1) = Some (clock w)
   /\ Todo.status (self_after r1) = "finished")
  /\ (fst r2 = Ok tt
      /\ todo.is_finished (self_after r2) = Some false
      /\ todo.finished_at (self_after r2) = None
      /\ Todo.status (self_after r2) = "open")
  /\ (Todo.status t = "finished" <-> todo.is_finished t = Some true)
  /\ (Todo.status t = "open" <-> todo.is_finished t <> Some true)
  /\ (fst r3 = Ok tt
      /\ todo.is_finished (self_after r3) = Some false
      /\ todo.finished_at (self_after r3) = None
      /\ Todo.status (self_after r3) = "open")
  /\ (fst r4 = Ok tt
      /\ todo.is_finished (self_after r4) = Some true
      /\ todo.finished_at (self_after r4) = Some (clock w)
      /\ Todo.status (self_after r4) = "finished").
Proof.
  intros r1 r2 r3 r4. subst r1 r2 r3 r4.
  destruct (finished_run t w) as [t1 [d1 [E1 [Hfin1 [Hat1 _]]]]].
  rewrite E1. simpl.
  destruct (reopen_run t1 (set_store d1 w)) as [t2 [d2 [E2 [Hfin2 [Hat2 _]]]]].
  unfold call in E2. rewrite E2.
  destruct (reopen_run t w) as [t3 [d3 [E3 [Hfin3 [Hat3 _]]]]].
  rewrite E3. simpl.
  destruct (finished_run t3 (set_store d3 w))
    as [t4 [d4 [E4 [Hfin4 [Hat4 _]]]]].
  unfold call in E4. rewrite E4. unfold self_after. simpl.
  split; [|split; [|split; [|split; [|split]]]].
  - repeat split; auto. apply status_finished_iff; exact Hfin1.
  - repeat split; auto. apply status_open_iff. congruence.
  - apply status_finished_iff.
  - apply status_open_iff.
  - repeat split; auto. apply status_open_iff. congruence.
  - repeat split; auto. apply status_finished_iff; exact Hfin4.
Qed.

(** ** The password of a [User] *)

Lemma flip_involutive (c : ascii) : flip (flip c) = c.
Proof.
  destruct c as [b0 b1 b2 b3 b4 b5 b6 b7]. simpl.
  rewrite negb_involutive. reflexivity.
Qed.

Lemma scramble_involutive (s : string) : scramble (scramble s) = s.
Proof.
  induction s as [|c s IH]; simpl; [reflexivity|].
  rewrite flip_involutive, IH. reflexivity.
Qed.

Lemma toy_check_own (salt p : string) :
  toy_check (toy_generate salt p) p = true.
Proof.
  unfold toy_check, toy_generate. apply String.eqb_refl.
Qed.

Lemma hmac_check_own (salt p : string) :
  hmac_check (hmac_generate salt p) p = true.
Proof.
  unfold hmac_check, hmac_generate. apply String.eqb_refl.
Qed.

Section PasswordFacts.

Variable generate_password_hash : string -> string -> string.
Variable check_password_hash : string -> string -> bool.

Lemma check_length_hash (h : string) :
  check_length (Some h) 128 = true
  <-> (1 <= String.length h <= 128)%nat.
Proof.
  unfold check_length.
  destruct h as [|a h]; simpl.
  - split; [discriminate|lia].
  - rewrite Nat.leb_le. lia.
Qed.

Lemma password_setter_unfold (password : option string) (u : user.row)
    (w : World) :
  call (User.password_setter generate_password_hash password) u w
  = if truthy_str password then
      let h := generate_password_hash (entropy w) (str_of password) in
      if check_length (Some h) 128
      then (Ok tt, mkCtx (user.set_password_hash (Some h) u) false w)
      else (Raise (ValueError "not a valid password, hash is too long"),
            mkCtx u false w)
    else (Raise (ValueError "no password given"), mkCtx u false w).
Proof.
  unfold call, User.password_setter.
  destruct (truthy_str password); [|reflexivity].
  cbv beta iota delta [negb bind gets raise modify on_self self pending world].
  destruct (check_length _ 128); reflexivity.
Qed.

(** C6.  Setting the password to an empty or missing value fails with
    [ValueError] and stores nothing.  For a non-empty value the setter
    fails with [ValueError] when the hash is longer than 128 characters,
    again storing nothing; otherwise it stores the salted hash in
    [password_hash] and changes nothing else.  Reading the [password]
    attribute raises [AttributeError] whatever the state. *)
Theorem password_setter_stores_hash_or_fails
    (password : option string) (u : user.row) (w : World) :
  let h := generate_password_hash (entropy w) (str_of password) in
  (truthy_str password = false ->
   call (User.password_setter generate_password_hash password) u w
   = (Raise (ValueError "no password given"), mkCtx u false w))
  /\ (truthy_str password = true ->
      (128 < String.length h)%nat ->
      call (User.password_setter generate_password_hash password) u w
      = (Raise (ValueError "not a valid password, hash is too long"),
         mkCtx u false w))
  /\ (truthy_str password = true ->
      (1 <= String.length h <= 128)%nat ->
      call (User.password_setter generate_password_hash password) u w
      = (Ok tt, mkCtx (user.set_password_hash (Some h) u) false w))
  /\ call User.password u w
     = (Raise (AttributeError "password is not a readable attribute"),
        mkCtx u false w).
Proof.
  intros h.
  rewrite password_setter_unfold. fold h.
  split; [|split; [|split]].
  - intros E. rewrite E. reflexivity.
  - intros E L. rewrite E. cbv zeta.
    destruct (check_length (Some h) 128) eqn:C; [|reflexivity].
    apply check_length_hash in C. lia.
  - intros E L. rewrite E. cbv zeta.
    apply check_length_hash in L. rewrite L. reflexivity.
  - reflexivity.
Qed.

Lemma password_setter_ok (p : string) (u : user.row) (w : World)
    (c : Ctx user.row) :
  call (User.password_setter generate_password_hash (Some p)) u w
  = (Ok tt, c) ->
  c = mkCtx (user.set_password_hash
               (Some (generate_password_hash (entropy w) p)) u) false w.
Proof.
  rewrite password_setter_unfold.
  destruct (truthy_str (Some p)); [|discriminate].
  cbv zeta. destruct (check_length _ 128); [|discriminate].
  intros X. injection X as <-. reflexivity.
Qed.

(** The contract of the hashing library: a hash verifies the password it
    was generated from.  Nothing is assumed of any other candidate. *)
Hypothesis check_own :
  forall salt p, check_password_hash (generate_password_hash salt p) p = true.
(** C5, amended.  Once the password of a user has been set to [p],
    [verify_password(q)] returns normally for every candidate [q], with
    the verdict of [check_password_hash] on the hash stored for [p] and
    on [q]; the verdict is true when [q] is [p].  What it is for another
    candidate is the library's matter. *)
Theorem verify_password_accepts_original
    (p : string) (u : user.row) (w : World) (c : Ctx user.row) :
  call (User.password_setter generate_password_hash (Some p)) u w
  = (Ok tt, c) ->
  forall q : string,
    exists b : bool,
      User.verify_password check_password_hash q c = (Ok b, c)
      /\ b = check_password_hash (generate_password_hash (entropy w) p) q
      /\ (q = p -> b = true).
Proof.
  intros Hset q.
  apply password_setter_ok in Hset. subst c.
  exists (check_password_hash (generate_password_hash (entropy w) p) q).
  split; [reflexivity|].
  split; [reflexivity|].
  intros ->. apply check_own.
Qed.

(** C10.  On a user whose [password_hash] is null, [verify_password]
    raises [AttributeError] for every candidate instead of returning
    false. *)
Theorem verify_password_without_hash_raises
    (u : user.row) (w : World) (q : string) :
  user.password_hash u = None ->
  exists msg : string,
    call (User.verify_password check_password_hash q) u w
    = (Raise (AttributeError msg), mkCtx u false w).
Proof.
  intros E.
  unfold call, User.verify_password, User.check_password_hash_py, bind, gets,
    raise; simpl.
  rewrite E. eexists. reflexivity.
Qed.

End PasswordFacts.

Lemma password_setter_stores_hash_or_fails_witness :
  call (User.password_setter toy_generate (Some "")) user.blank sample_world
  = (Raise (ValueError "no password given"),
     mkCtx user.blank false sample_world)
  /\ call (User.password_setter toy_generate (Some "hunter2")) user.blank
          sample_world
     = (Ok tt,
        mkCtx (user.set_password_hash (Some "toy$$itouds3") user.blank)
              false sample_world).
Proof.
  split.
  - apply (proj1 (password_setter_stores_hash_or_fails toy_generate
                    (Some "") user.blank sample_world)).
    reflexivity.
  - apply (proj1 (proj2 (proj2 (password_setter_stores_hash_or_fails
                                  toy_generate (Some "hunter2") user.blank
                                  sample_world)))).
    + reflexivity.
    + simpl; lia.
Defined.

(** C5, as stated, fails: with a library that keys its digest as HMAC
    does, and that verifies every password against its own hash
    ([hmac_check_own]), the candidate "hunter2" followed by a zero
    character is verified against the hash of "hunter2", from which it
    differs. *)
Lemma verify_password_accepts_padded_password :
  fst (call (User.password_setter hmac_generate (Some "hunter2"))
            user.blank sample_world) = Ok tt
  /\ User.verify_password hmac_check hunter2_nul
       (snd (call (User.password_setter hmac_generate (Some "hunter2"))
                  user.blank sample_world))
     = (Ok true,
        snd (call (User.password_setter hmac_generate (Some "hunter2"))
                  user.blank sample_world))
  /\ hunter2_nul <> "hunter2"%string.
Proof.
  split; [reflexivity|].
  split; [vm_compute; reflexivity|].
  discriminate.
Qed.

Lemma verify_password_accepts_original_witness :
  (exists b : bool,
      User.verify_password hmac_check "hunter2"
        (snd (call (User.password_setter hmac_generate (Some "hunter2"))
                   user.blank sample_world))
      = (Ok b,
         snd (call (User.password_setter hmac_generate (Some "hunter2"))
                   user.blank sample_world))
      /\ b = hmac_check (hmac_generate (entropy sample_world) "hunter2")
                        "hunter2"
      /\ ("hunter2"%string = "hunter2"%string -> b = true))
  /\ (exists b : bool,
         User.verify_password hmac_check "hunter3"
           (snd (call (User.password_setter hmac_generate (Some "hunter2"))
                      user.blank sample_world))
         = (Ok b,
            snd (call (User.password_setter hmac_generate (Some "hunter2"))
                       user.blank sample_world))
         /\ b = hmac_check (hmac_generate (entropy sample_world) "hunter2")
                           "hunter3"
         /\ ("hunter3"%string = "hunter2"%string -> b = true)).
Proof.
  split;
    apply (verify_password_accepts_original hmac_generate hmac_check
             hmac_check_own "hunter2" user.blank sample_world);
    reflexivity.
Defined.

Lemma verify_password_without_hash_raises_witness :
  exists msg : string,
    call (User.verify_password toy_check "hunter2") user.blank sample_world
    = (Raise (AttributeError msg), mkCtx user.blank false sample_world).
Proof.
  apply (verify_password_without_hash_raises toy_check user.blank
           sample_world "hunter2").
  reflexivity.
Defined.

(** ** What the two patterns accept *)

Lemma has_space_append (a b : string) :
  has_space (a ++ b)%string = has_space a || has_space b.
Proof.
  induction a as [|c a IH]; simpl; [reflexivity|].
  rewrite IH. apply orb_assoc.
Qed.

Lemma append_empty_r (a : string) : (a ++ "")%string = a.
Proof.
  induction a as [|c a IH]; simpl; congruence.
Qed.

Lemma append_assoc (a b c : string) :
  ((a ++ b) ++ c)%string = (a ++ (b ++ c))%string.
Proof.
  induction a as [|x a IH]; simpl; congruence.
Qed.

(** Bring nested concatenations into right-nested form. *)
Ltac normalize_append :=
  repeat (first [rewrite append_assoc | progress simpl]).

Lemma plus_step (re : regex) (b : bool) (c : ascii) (s : string) :
  match_here (NonSpacePlus :: re) b (String c s)
  = negb (is_space c)
    && (match_here (NonSpacePlus :: re) b s || match_here re false s).
Proof. reflexivity. Qed.

(** [\S+] followed by [re] matches when the subject splits into a
    non-empty run free of white space and a rest that [re] matches. *)
Lemma match_plus (re : regex) (b : bool) (s : string) :
  match_here (NonSpacePlus :: re) b s = true
  <-> exists w rest : string,
        s = (w ++ rest)%string /\ nonspace_word w
        /\ match_here re false rest = true.
Proof.
  split.
  - induction s as [|c s IH]; [discriminate|].
    rewrite plus_step. intros E.
    apply andb_true_iff in E. destruct E as [Hc E].
    apply negb_true_iff in Hc.
    apply orb_true_iff in E. destruct E as [E|E].
    + destruct (IH E) as [w [rest [-> [[_ Hw] Hr]]]].
      exists (String c w), rest. repeat split; auto.
      * discriminate.
      * simpl. rewrite Hc, Hw. reflexivity.
    + exists (String c ""), s. repeat split; auto.
      * discriminate.
      * simpl. rewrite Hc. reflexivity.
  - intros [w [rest [-> [[Hne Hw] Hr]]]].
    induction w as [|c w IH]; [congruence|].
    simpl in Hw. apply orb_false_iff in Hw. destruct Hw as [Hc Hw].
    change (String c w ++ rest)%string with (String c (w ++ rest)%string).
    rewrite plus_step, Hc. cbn [negb andb].
    destruct w as [|c' w].
    + change ("" ++ rest)%string with rest. rewrite Hr. apply orb_true_r.
    + rewrite IH; [reflexivity|discriminate|exact Hw].
Qed.

Lemma match_lit (re : regex) (b : bool) (c : ascii) (s : string) :
  match_here (Lit c :: re) b s = true
  <-> exists rest : string,
        s = String c rest /\ match_here re false rest = true.
Proof.
  simpl. destruct s as [|c' s].
  - split; [discriminate|]. intros [rest [X _]]. discriminate.
  - rewrite andb_true_iff, Ascii.eqb_eq. split.
    + intros [-> Hr]. exists s. auto.
    + intros [rest [X Hr]]. injection X as -> ->. auto.
Qed.

Lemma match_dollar (b : bool) (s : string) :
  match_here [Dollar] b s = true <-> s = "" \/ s = String LF "".
Proof.
  simpl. rewrite andb_true_r.
  destruct s as [|c [|c' s]]; simpl.
  - split; auto.
  - rewrite Ascii.eqb_eq. split.
    + intros ->. auto.
    + intros [X|X]; [discriminate|congruence].
  - split; [discriminate|]. intros [X|X]; discriminate.
Qed.

(** [USERNAME_REGEX] accepts a non-empty run free of white space, and
    also such a run followed by one newline. *)
Lemma USERNAME_REGEX_accepts (s : string) :
  re_match USERNAME_REGEX s = true
  <-> exists w : string,
        nonspace_word w /\ (s = w \/ s = (w ++ String LF "")%string).
Proof.
  unfold re_match, USERNAME_REGEX.
  change (match_here [Caret; NonSpacePlus; Dollar] true s)
    with (match_here [NonSpacePlus; Dollar] true s).
  rewrite match_plus. split.
  - intros [w [rest [-> [Hw Hr]]]]. exists w. split; [exact Hw|].
    apply match_dollar in Hr. destruct Hr as [->| ->]; auto.
    left. apply append_empty_r.
  - intros [w [Hw [->| ->]]].
    + exists w, ""%string. rewrite append_empty_r.
      split; [reflexivity|]. split; [exact Hw|reflexivity].
    + exists w, (String LF "").
      split; [reflexivity|]. split; [exact Hw|reflexivity].
Qed.

(** [EMAIL_REGEX] accepts the shape [nonspace@nonspace.nonspace], and also
    such an address followed by one newline. *)
Lemma EMAIL_REGEX_accepts (s : string) :
  re_match EMAIL_REGEX s = true
  <-> exists e : string,
        email_shape e /\ (s = e \/ s = (e ++ String LF "")%string).
Proof.
  unfold re_match, EMAIL_REGEX.
  change (match_here
            [Caret; NonSpacePlus; Lit "@"; NonSpacePlus; Lit "."; NonSpacePlus;
             Dollar] true s)
    with (match_here
            [NonSpacePlus; Lit "@"; NonSpacePlus; Lit "."; NonSpacePlus;
             Dollar] true s).
  split.
  - intros E.
    apply match_plus in E. destruct E as [x [r1 [-> [Hx E]]]].
    apply match_lit in E. destruct E as [r2 [-> E]].
    apply match_plus in E. destruct E as [y [r3 [-> [Hy E]]]].
    apply match_lit in E. destruct E as [r4 [-> E]].
    apply match_plus in E. destruct E as [z [r5 [-> [Hz E]]]].
    apply match_dollar in E.
    exists (x ++ "@" ++ y ++ "." ++ z)%string. split.
    + exists x, y, z. auto.
    + destruct E as [->| ->]; [left|right].
      * rewrite append_empty_r. reflexivity.
      * normalize_append. reflexivity.
  - intros [e [[x [y [z [Hx [Hy [Hz ->]]]]]] Hs]].
    assert (Hend : exists r5, (r5 = "" \/ r5 = String LF "")
                              /\ s = (x ++ "@" ++ y ++ "." ++ z ++ r5)%string).
    { destruct Hs as [->| ->].
      - exists ""%string. split; [auto|]. rewrite append_empty_r. reflexivity.
      - exists (String LF ""). split; [auto|].
        normalize_append. reflexivity. }
    destruct Hend as [r5 [Hr5 ->]].
    apply match_plus. exists x. eexists. split; [reflexivity|].
    split; [exact Hx|].
    apply match_lit. eexists. split; [reflexivity|].
    apply match_plus. exists y. eexists. split; [reflexivity|].
    split; [exact Hy|].
    apply match_lit. eexists. split; [reflexivity|].
    apply match_plus. exists z, r5. split; [reflexivity|].
    split; [exact Hz|].
    apply match_dollar. exact Hr5.
Qed.

(** ** The setters of [User.name] and [User.emailaddress] *)

Lemma name_setter_run (v : option string) (u : user.row) (w : World) :
  call (User.name_setter v) u w
  = if check_length v 64 && User.matches USERNAME_REGEX v
    then (Ok tt, mkCtx (user.set_username v u) false w)
    else (Raise (ValueError (format_arg v ++ " is not a valid username")),
          mkCtx u false w).
Proof.
  unfold call, User.name_setter.
  destruct (check_length v 64); destruct (User.matches USERNAME_REGEX v);
    reflexivity.
Qed.

Lemma emailaddress_setter_run (v : option string) (u : user.row) (w : World) :
  call (User.emailaddress_setter v) u w
  = if check_length v 64 && User.matches EMAIL_REGEX v
    then (Ok tt, mkCtx (user.set_email v u) false w)
    else (Raise (ValueError (format_arg v ++ " is not a valid email address")),
          mkCtx u false w).
Proof.
  unfold call, User.emailaddress_setter.
  destruct (check_length v 64); destruct (User.matches EMAIL_REGEX v);
    reflexivity.
Qed.

Lemma check_length_str (s : string) (n : nat) :
  check_length (Some s) n = true
  <-> s <> ""%string /\ (String.length s <= n)%nat.
Proof.
  unfold check_length. destruct s as [|c s].
  - simpl. split; [discriminate|]. intros [X _]. congruence.
  - cbn [truthy_str andb]. rewrite Nat.leb_le.
    split; [intros L; split; [discriminate|exact L]|intros [_ L]; exact L].
Qed.

(** The name setter accepts exactly the strings of 1 to 64 characters that
    are free of white space, or free of white space up to one newline at
    the very end. *)
Lemma name_setter_accepts_iff (s : string) (u : user.row) (w : World) :
  is_ok (fst (call (User.name_setter (Some s)) u w)) = true
  <-> (String.length s <= 64)%nat
      /\ exists b : string,
           nonspace_word b /\ (s = b \/ s = (b ++ String LF "")%string).
Proof.
  rewrite name_setter_run.
  destruct (check_length (Some s) 64 && User.matches USERNAME_REGEX (Some s))
    eqn:E; simpl.
  - apply andb_true_iff in E. destruct E as [L R].
    apply check_length_str in L. apply USERNAME_REGEX_accepts in R.
    split; [|reflexivity]. intros _. split; [apply L|exact R].
  - split; [discriminate|]. intros [L R].
    pose proof (proj2 (USERNAME_REGEX_accepts s) R) as R'.
    change (User.matches USERNAME_REGEX (Some s))
      with (re_match USERNAME_REGEX s) in E.
    rewrite R' in E.
    assert (C : check_length (Some s) 64 = true).
    { apply check_length_str. split; [|exact L].
      destruct R as [b [[Hb _] [->| ->]]]; [exact Hb|].
      destruct b; [congruence|discriminate]. }
    rewrite C in E. discriminate.
Qed.

(** C7.  The name setter does not raise on a username that ends in a
    newline, although the newline is white space: the username is stored
    with the newline. *)
Theorem name_setter_accepts_trailing_newline (u : user.row) (w : World) :
  has_space username_with_newline = true
  /\ (String.length username_with_newline <= 64)%nat
  /\ call (User.name_setter (Some username_with_newline)) u w
     = (Ok tt,
        mkCtx (user.set_username (Some username_with_newline) u) false w).
Proof.
  split; [reflexivity|]. split; [simpl; lia|].
  rewrite name_setter_run. reflexivity.
Qed.

Lemma nonspace_at_dot : is_space "@" = false /\ is_space "." = false.
Proof. split; reflexivity. Qed.

Lemma email_shape_has_no_space (e : string) :
  email_shape e -> has_space e = false.
Proof.
  intros [x [y [z [[_ Hx] [[_ Hy] [[_ Hz] ->]]]]]].
  rewrite has_space_append, Hx. simpl.
  rewrite has_space_append, Hy. simpl.
  rewrite Hz. reflexivity.
Qed.

(** The email setter accepts exactly the strings of at most 64 characters
    of the shape [nonspace@nonspace.nonspace], or of that shape up to one
    newline at the very end. *)
Lemma emailaddress_setter_accepts_iff (s : string) (u : user.row)
    (w : World) :
  is_ok (fst (call (User.emailaddress_setter (Some s)) u w)) = true
  <-> (String.length s <= 64)%nat
      /\ exists e : string,
           email_shape e /\ (s = e \/ s = (e ++ String LF "")%string).
Proof.
  rewrite emailaddress_setter_run.
  destruct (check_length (Some s) 64 && User.matches EMAIL_REGEX (Some s))
    eqn:E; simpl.
  - apply andb_true_iff in E. destruct E as [L R].
    apply check_length_str in L. apply EMAIL_REGEX_accepts in R.
    split; [|reflexivity]. intros _. split; [apply L|exact R].
  - split; [discriminate|]. intros [L R].
    pose proof (proj2 (EMAIL_REGEX_accepts s) R) as R'.
    change (User.matches EMAIL_REGEX (Some s))
      with (re_match EMAIL_REGEX s) in E.
    rewrite R' in E.
    assert (C : check_length (Some s) 64 = true).
    { apply check_length_str. split; [|exact L].
      destruct R as [e [[x [y [z [[Hx _] [_ [_ ->]]]]]] [->| ->]]];
        destruct x; try congruence; discriminate. }
    rewrite C in E. discriminate.
Qed.

(** C8.  The email setter does not raise on an address that ends in a
    newline, although such a string is not of the shape
    [nonspace@nonspace.nonspace]: the address is stored with the
    newline. *)
Theorem emailaddress_setter_accepts_trailing_newline
    (u : user.row) (w : World) :
  ~ email_shape email_with_newline
  /\ (String.length email_with_newline <= 64)%nat
  /\ call (User.emailaddress_setter (Some email_with_newline)) u w
     = (Ok tt, mkCtx (user.set_email (Some email_with_newline) u) false w).
Proof.
  split; [|split].
  - intros H. apply email_shape_has_no_space in H. discriminate.
  - simpl; lia.
  - rewrite emailaddress_setter_run. reflexivity.
Qed.

(** ** The title of a [TodoList] *)

(** [is_valid_title] holds of the non-empty titles of at most 128
    characters. *)
Lemma is_valid_title_iff (t : string) :
  TodoList.is_valid_title (Some t) = true
  <-> t <> ""%string /\ (String.length t <= 128)%nat.
Proof.
  apply check_length_str.
Qed.

(** C9, as stated, fails: constructed with the empty title, a list is
    titled "untitled", not "". *)
Lemma todolist_empty_title_not_preserved :
  todolist.title (TodoList.__init__ (Some "") None None sample_world)
  = Some "untitled"
  /\ todolist.title (TodoList.__init__ (Some "") None None sample_world)
     <> Some "".
Proof.
  split; [reflexivity|discriminate].
Qed.

(** C9, amended.  Constructing a list with no title, or with the empty
    title, yields the title "untitled"; constructing it with a non-empty
    title keeps that title. *)
Theorem todolist_title_default_or_given
    (creator : option string) (created_at : option datetime) (w : World) :
  todolist.title (TodoList.__init__ None creator created_at w)
  = Some "untitled"
  /\ todolist.title (TodoList.__init__ (Some "") creator created_at w)
     = Some "untitled"
  /\ (forall title : string,
         title <> ""%string ->
         todolist.title (TodoList.__init__ (Some title) creator created_at w)
         = Some title).
Proof.
  split; [reflexivity|]. split; [reflexivity|].
  intros title Hne. destruct title; [congruence|reflexivity].
Qed.

Lemma todolist_title_default_or_given_witness :
  todolist.title (TodoList.__init__ (Some "groceries") None None sample_world)
  = Some "groceries".
Proof.
  apply (proj2 (proj2 (todolist_title_default_or_given None None
                         sample_world)) "groceries").
  discriminate.
Defined.

(** * Further properties of the module *)

(** ** What a flush does to a table *)

Section FlushFacts.
Context {A : Type} `{Model A}.

(** The laws that the three mapped classes satisfy. *)
Hypothesis table_set_table :
  forall (rows : list A) (d : DB), table (set_table rows d) = rows.
Hypothesis set_table_table :
  forall d : DB, set_table (table d) d = d.
Hypothesis pk_set_pk :
  forall (i : Z) (o : A), pk (set_pk i o) = Some i.
Hypothesis pk_column_defaults :
  forall (now : datetime) (o : A), pk (column_defaults now o) = pk o.

Lemma has_pk_iff (i : Z) (r : A) : has_pk i r = true <-> pk r = Some i.
Proof.
  unfold has_pk, sql_eq_int. destruct (pk r) as [j|].
  - rewrite Z.eqb_eq. split; congruence.
  - split; discriminate.
Qed.

Lemma existsb_has_pk (i : Z) (rows : list A) :
  existsb (has_pk i) rows = true <-> In (Some i) (map pk rows).
Proof.
  rewrite existsb_exists, in_map_iff. split.
  - intros [r [Hin Hr]]. exists r. apply has_pk_iff in Hr. auto.
  - intros [r [Hr Hin]]. exists r. split; [exact Hin|].
    apply has_pk_iff. exact Hr.
Qed.

Lemma next_id_above (rows : list A) (r : A) (j : Z) :
  In r rows -> pk r = Some j -> (j < next_id rows)%Z.
Proof.
  unfold next_id. induction rows as [|x rows IH]; [simpl; tauto|].
  cbn [fold_right In]. intros [->|Hin] Hj.
  - rewrite Hj. lia.
  - specialize (IH Hin Hj). destruct (pk x); lia.
Qed.

Lemma next_id_fresh (rows : list A) :
  ~ In (Some (next_id rows)) (map pk rows).
Proof.
  intros Hin. apply in_map_iff in Hin. destruct Hin as [r [Hr Hin]].
  pose proof (@next_id_above rows r _ Hin Hr). lia.
Qed.

(** An accepted flush is an UPDATE, which puts the object in the place of
    the rows that have its key, or an INSERT, which puts the object, with
    its defaults, at the end of the table under a key that no row has. *)
Lemma flush_ok_cases (now : datetime) (o o' : A) (d d' : DB) :
  flush now o d = Ok (o', d') ->
  exists i : Z,
    pk o' = Some i
    /\ d' = set_table (table d') d
    /\ ((o' = o
         /\ In (Some i) (map pk (table d))
         /\ unique_ok (filter (fun r => negb (has_pk i r)) (table d)) o = true
         /\ table d' = map (fun r => if has_pk i r then o else r) (table d))
        \/ ((o' = column_defaults now o
             \/ o' = set_pk (next_id (table d)) (column_defaults now o))
            /\ ~ In (Some i) (map pk (table d))
            /\ unique_ok (table d) o' = true
            /\ table d' = table d ++ [o'])).
Proof.
  assert (Hins : forall (x : A) (i : Z),
             pk x = Some i ->
             ~ In (Some i) (map pk (table d)) ->
             insert x d = Ok (o', d') ->
             o' = x
             /\ pk o' = Some i
             /\ d' = set_table (table d') d
             /\ ~ In (Some i) (map pk (table d))
             /\ unique_ok (table d) o' = true
             /\ table d' = table d ++ [o']).
  { intros x i Hx Hfresh E. unfold insert in E.
    destruct (unique_ok (table d) x) eqn:U; [|discriminate].
    injection E as <- <-. rewrite table_set_table. auto 7. }
  unfold flush. destruct (pk o) as [i|] eqn:Epk.
  - destruct (existsb (has_pk i) (table d)) eqn:Ex.
    + unfold update.
      destruct (unique_ok _ o) eqn:U; [|discriminate].
      intros E. injection E as <- <-. exists i.
      rewrite table_set_table.
      split; [exact Epk|]. split; [reflexivity|]. left.
      apply existsb_has_pk in Ex. auto.
    + intros E. apply Hins with (i := i) in E.
      * destruct E as [E1 [E2 [E3 [E4 [E5 E6]]]]].
        exists i. split; [exact E2|]. split; [exact E3|]. right. auto.
      * rewrite pk_column_defaults. exact Epk.
      * rewrite <- existsb_has_pk, Ex. discriminate.
  - intros E. apply Hins with (i := next_id (table d)) in E.
    + destruct E as [E1 [E2 [E3 [E4 [E5 E6]]]]].
      exists (next_id (table d)).
      split; [exact E2|]. split; [exact E3|]. right. auto.
    + apply pk_set_pk.
    + apply next_id_fresh.
Qed.

Lemma map_pk_replace (i : Z) (o : A) (rows : list A) :
  pk o = Some i ->
  map pk (map (fun r => if has_pk i r then o else r) rows) = map pk rows.
Proof.
  intros Ho. rewrite map_map. apply map_ext. intros r.
  destruct (has_pk i r) eqn:E; [|reflexivity].
  apply has_pk_iff in E. congruence.
Qed.

Lemma find_replace (i : Z) (o : A) (rows : list A) :
  pk o = Some i ->
  In (Some i) (map pk rows) ->
  find (has_pk i) (map (fun r => if has_pk i r then o else r) rows) = Some o.
Proof.
  intros Ho. induction rows as [|r rows IH]; simpl; [tauto|].
  intros Hin. destruct (has_pk i r) eqn:E.
  - apply has_pk_iff in Ho. rewrite Ho. reflexivity.
  - rewrite E. apply IH. destruct Hin as [Hr|Hin]; [|exact Hin].
    apply has_pk_iff in Hr. congruence.
Qed.


Lemma find_app_fresh (i : Z) (o : A) (rows : list A) :
  pk o = Some i ->
  ~ In (Some i) (map pk rows) ->
  find (has_pk i) (rows ++ [o]) = Some o.
Proof.
  intros Ho Hfresh. induction rows as [|r rows IH]; simpl.
  - apply has_pk_iff in Ho. rewrite Ho. reflexivity.
  - destruct (has_pk i r) eqn:E.
    + exfalso. apply Hfresh. left. apply has_pk_iff. exact E.
    + apply IH. intros Hin. apply Hfresh. right. exact Hin.
Qed.

(** Where no row has the key, replacing by key and filtering by key do
    nothing. *)
Lemma replace_fresh (i : Z) (o : A) (rows : list A) :
  ~ In (Some i) (map pk rows) ->
  map (fun r => if has_pk i r then o else r) rows = rows
  /\ filter (fun r => negb (has_pk i r)) rows = rows.
Proof.
  induction rows as [|r rows IH]; simpl; [auto|].
  intros Hfresh.
  destruct (has_pk i r) eqn:E.
  - exfalso. apply Hfresh. left. apply has_pk_iff. exact E.
  - simpl. destruct IH as [IH1 IH2]; [tauto|].
    rewrite IH1, IH2. auto.
Qed.

(** Where the keys are distinct, replacing a stored row by itself does
    nothing. *)
Lemma replace_self (i : Z) (o : A) (rows : list A) :
  NoDup (map pk rows) ->
  find (has_pk i) rows = Some o ->
  map (fun r => if has_pk i r then o else r) rows = rows.
Proof.
  induction rows as [|r rows IH]; simpl; [reflexivity|].
  intros Hnd F. inversion Hnd as [|k ks Hk Hnd']; subst.
  destruct (has_pk i r) eqn:E.
  - injection F as ->. f_equal.
    apply replace_fresh. apply has_pk_iff in E. congruence.
  - f_equal. apply IH; assumption.
Qed.

Lemma keys_ok_replace (i : Z) (o : A) (rows : list A) :
  pk o = Some i ->
  keys_ok rows ->
  keys_ok (map (fun r => if has_pk i r then o else r) rows).
Proof.
  intros Ho [Hnn Hnd]. unfold keys_ok.
  rewrite map_pk_replace by exact Ho. split; [|exact Hnd].
  apply Forall_forall. intros r Hr. apply in_map_iff in Hr.
  destruct Hr as [x [<- Hx]].
  destruct (has_pk i x); [congruence|].
  rewrite Forall_forall in Hnn. auto.
Qed.

Lemma keys_ok_app (i : Z) (o : A) (rows : list A) :
  pk o = Some i ->
  ~ In (Some i) (map pk rows) ->
  keys_ok rows ->
  keys_ok (rows ++ [o]).
Proof.
  intros Ho Hfresh [Hnn Hnd]. split.
  - apply Forall_app. split; [exact Hnn|].
    constructor; [congruence|constructor].
  - rewrite map_app. simpl. rewrite Ho.
    apply NoDup_app; [exact Hnd|repeat constructor; simpl; tauto|].
    intros x Hx [<-|[]]. exact (Hfresh Hx).
Qed.

(** An accepted flush keeps the keys of the table present and distinct. *)
Lemma flush_keeps_keys_ok (now : datetime) (o o' : A) (d d' : DB) :
  flush now o d = Ok (o', d') ->
  keys_ok (table d) -> keys_ok (table d').
Proof.
  intros E K.
  destruct (@flush_ok_cases _ _ _ _ _ E)
    as [i [Hi [_ [[-> [Hin [_ Ht]]]|[_ [Hf [_ Ht]]]]]]]; rewrite Ht.
  - apply keys_ok_replace; assumption.
  - apply keys_ok_app with (i := i); assumption.
Qed.

(** The object of an accepted flush is the row found under its key. *)
Lemma flush_then_get (now : datetime) (o o' : A) (d d' : DB) :
  flush now o d = Ok (o', d') ->
  exists i : Z, pk o' = Some i /\ query_get i d' = Some o'.
Proof.
  intros E.
  destruct (@flush_ok_cases _ _ _ _ _ E)
    as [i [Hi [_ [[-> [Hin [_ Ht]]]|[_ [Hf [_ Ht]]]]]]];
    exists i; (split; [exact Hi|]); unfold query_get; rewrite Ht.
  - apply find_replace; assumption.
  - apply find_app_fresh; assumption.
Qed.

(** An accepted flush keeps every row stored under another key, and adds
    at most one row. *)
Lemma flush_keeps_other_rows (now : datetime) (o o' : A) (d d' : DB) :
  flush now o d = Ok (o', d') ->
  (forall r : A, In r (table d) -> pk r <> pk o' -> In r (table d'))
  /\ (List.length (table d') = List.length (table d)
      \/ List.length (table d') = S (List.length (table d))).
Proof.
  intros E.
  destruct (@flush_ok_cases _ _ _ _ _ E)
    as [i [Hi [_ [[-> [Hin [_ Ht]]]|[_ [Hf [_ Ht]]]]]]]; rewrite Ht.
  - split.
    + intros r Hr Hne. apply in_map_iff. exists r. split; [|exact Hr].
      destruct (has_pk i r) eqn:Er; [|reflexivity].
      apply has_pk_iff in Er. congruence.
    + left. apply length_map.
  - split.
    + intros r Hr _. apply in_or_app. auto.
    + right. rewrite length_app. simpl. lia.
Qed.

Lemma filter_replace (i : Z) (o : A) (rows : list A) :
  pk o = Some i ->
  filter (fun r => negb (has_pk i r))
    (map (fun r => if has_pk i r then o else r) rows)
  = filter (fun r => negb (has_pk i r)) rows.
Proof.
  intros Ho. apply has_pk_iff in Ho.
  induction rows as [|r rows IH]; simpl; [reflexivity|].
  destruct (has_pk i r) eqn:Er; simpl.
  - rewrite Ho. simpl. apply IH.
  - rewrite Er. simpl. f_equal. apply IH.
Qed.

Lemma replace_replace (i : Z) (o : A) (rows : list A) :
  pk o = Some i ->
  map (fun r => if has_pk i r then o else r)
    (map (fun r => if has_pk i r then o else r) rows)
  = map (fun r => if has_pk i r then o else r) rows.
Proof.
  intros Ho. apply has_pk_iff in Ho.
  rewrite map_map. apply map_ext. intros r.
  destruct (has_pk i r) eqn:Er; [|rewrite Er; reflexivity].
  rewrite Ho. reflexivity.
Qed.

(** Flushing again the object of an accepted flush changes nothing. *)
Lemma flush_again (now now' : datetime) (o o' : A) (d d' : DB) :
  flush now o d = Ok (o', d') ->
  flush now' o' d' = Ok (o', d').
Proof.
  intros E.
  destruct (@flush_then_get _ _ _ _ _ E) as [i [Hi Hget]].
  assert (Hex : existsb (has_pk i) (table d') = true).
  { apply existsb_exists. unfold query_get in Hget.
    apply find_some in Hget. exists o'. exact Hget. }
  unfold flush. rewrite Hi, Hex. unfold update.
  destruct (@flush_ok_cases _ _ _ _ _ E)
    as [j [Hj [_ [[-> [Hin [U Ht]]]|[_ [Hf [U Ht]]]]]]];
    assert (j = i) by congruence; subst j; rewrite Ht.
  - pose proof (@filter_replace i o (table d) Hi) as F.
    pose proof (@replace_replace i o (table d) Hi) as G.
    rewrite F, U, G, <- Ht, set_table_table. reflexivity.
  - destruct (@replace_fresh i o' (table d) Hf) as [R1 R2].
    assert (Ho : has_pk i o' = true) by (apply has_pk_iff; exact Hi).
    rewrite filter_app, map_app, R1, R2. simpl. rewrite Ho. simpl.
    rewrite app_nil_r, U, <- Ht, set_table_table. reflexivity.
Qed.

(** *** The same facts for [save] *)

Lemma save_keeps_keys_ok_any (o : A) (w : World) :
  keys_ok (table (store w)) ->
  keys_ok (table (store (world_after (call save o w)))).
Proof.
  intros K. unfold world_after, call. rewrite save_unfold. simpl.
  destruct (flush (clock w) o (store w)) as [[o' d']|e] eqn:E; simpl.
  - apply (@flush_keeps_keys_ok _ _ _ _ _ E K).
  - exact K.
Qed.

Lemma save_keeps_other_rows_any (o : A) (w : World) :
  (forall r : A,
      In r (table (store w)) ->
      pk r <> pk (self_after (call save o w)) ->
      In r (table (store (world_after (call save o w)))))
  /\ (List.length (table (store (world_after (call save o w))))
      = List.length (table (store w))
      \/ List.length (table (store (world_after (call save o w))))
         = S (List.length (table (store w))))
  /\ exists rows : list A,
       store (world_after (call save o w)) = set_table rows (store w).
Proof.
  unfold world_after, self_after, call. rewrite save_unfold. simpl.
  destruct (flush (clock w) o (store w)) as [[o' d']|e] eqn:E; simpl.
  - destruct (@flush_keeps_other_rows _ _ _ _ _ E) as [P1 P2].
    split; [exact P1|]. split; [exact P2|].
    destruct (@flush_ok_cases _ _ _ _ _ E) as [i [_ [Hd _]]].
    exists (table d'). exact Hd.
  - split; [auto|]. split; [auto|].
    exists (table (store w)). symmetry. apply set_table_table.
Qed.

Lemma save_again_any (o : A) (w : World) :
  keys_ok (table (store w)) ->
  call save (self_after (call save o w)) (world_after (call save o w))
  = call save o w.
Proof.
  intros [_ Hnd]. unfold world_after, self_after, call.
  rewrite (save_unfold (mkCtx o false w)). simpl.
  destruct (flush (clock w) o (store w)) as [[o' d']|e] eqn:E; simpl.
  - rewrite save_unfold. simpl.
    rewrite (@flush_again _ (clock w) _ _ _ _ E). reflexivity.
  - rewrite save_unfold. simpl.
    remember (reload (store w) o) as r eqn:Er.
    assert (C : r = o
                \/ exists i : Z,
                     pk r = Some i
                     /\ find (has_pk i) (table (store w)) = Some r).
    { subst r. unfold reload. destruct (pk o) as [i|] eqn:Epk; [|auto].
      destruct (find (has_pk i) (table (store w))) as [x|] eqn:F; [|auto].
      right. exists i. split; [|exact F].
      apply find_some in F. apply has_pk_iff. apply F. }
    destruct C as [->|[i [Hpk F]]].
    + rewrite E. simpl. rewrite <- Er. reflexivity.
    + assert (Hex : existsb (has_pk i) (table (store w)) = true).
      { apply existsb_exists. exists r. apply find_some in F. exact F. }
      unfold flush. rewrite Hpk, Hex. unfold update.
      destruct (unique_ok _ r); simpl.
      * rewrite (@replace_self i r _ Hnd F), set_table_table.
        destruct w; reflexivity.
      * unfold reload. rewrite Hpk, F. reflexivity.
Qed.

End FlushFacts.

(** ** Invariants of the store under [save] *)

(** Discharges the laws of a mapped class. *)
Ltac model_laws :=
  try solve [intros; reflexivity | intros []; reflexivity].

(** The [todolist] table has no constraint a flush could break. *)
Lemma todolist_flush_ok (now : datetime) (l : todolist.row) (d : DB) :
  exists (l' : todolist.row) (d' : DB), flush now l d = Ok (l', d').
Proof.
  unfold flush, update, insert. simpl.
  destruct (todolist.id l) as [i|];
    [destruct (existsb (has_pk i) (todolists d))|]; eauto.
Qed.

Lemma todo_flush_accepts (now : datetime) (t : todo.row) (d : DB) :
  exists (t' : todo.row) (d' : DB), flush now t d = Ok (t', d').
Proof.
  destruct (todo_flush_ok now t d) as [t' [d' [E _]]]. eauto.
Qed.

(** X1.  [save] keeps the primary keys of its table present and pairwise
    distinct, for users, todo lists and todos alike. *)
Theorem save_keeps_keys_ok :
  (forall (u : user.row) (w : World),
      keys_ok (users (store w)) ->
      keys_ok (users (store (world_after (call save u w)))))
  /\ (forall (l : todolist.row) (w : World),
         keys_ok (todolists (store w)) ->
         keys_ok (todolists (store (world_after (call save l w)))))
  /\ (forall (t : todo.row) (w : World),
         keys_ok (todos (store w)) ->
         keys_ok (todos (store (world_after (call save t w))))).
Proof.
  split; [|split]; intros o w K.
  - refine (@save_keeps_keys_ok_any user.row _ _ _ _ o w K); model_laws.
  - refine (@save_keeps_keys_ok_any todolist.row _ _ _ _ o w K); model_laws.
  - refine (@save_keeps_keys_ok_any todo.row _ _ _ _ o w K); model_laws.
Qed.

Lemma keys_ok_world_with_bob : keys_ok (users (store world_with_bob)).
Proof.
  split; vm_compute.
  - repeat constructor. discriminate.
  - repeat constructor. intros [].
Qed.

Lemma save_keeps_keys_ok_witness :
  keys_ok (users (store world_with_bob))
  /\ keys_ok (users (store (world_after (call save bob world_with_bob)))).
Proof.
  split; [exact keys_ok_world_with_bob|].
  exact (proj1 save_keeps_keys_ok bob world_with_bob keys_ok_world_with_bob).
Defined.

Lemma sql_eq_str_sym (a b : option string) : sql_eq_str a b = sql_eq_str b a.
Proof.
  destruct a as [x|], b as [y|]; simpl; try reflexivity.
  apply String.eqb_sym.
Qed.

Lemma user_clash_sym (a b : user.row) : user_clash a b = user_clash b a.
Proof.
  unfold user_clash.
  rewrite (sql_eq_str_sym (user.username a)), (sql_eq_str_sym (user.email a)).
  reflexivity.
Qed.

(** The unique constraints accept a user exactly when it collides with
    none of the rows. *)
Lemma user_unique_ok_iff (rows : list user.row) (u : user.row) :
  unique_ok rows u = true <-> forall r, In r rows -> user_clash r u = false.
Proof.
  change (unique_ok rows u)
    with (negb (existsb (fun r => user_clash r u) rows)).
  rewrite negb_true_iff. split.
  - intros E r Hin. destruct (user_clash r u) eqn:C; [|reflexivity].
    assert (X : existsb (fun r => user_clash r u) rows = true).
    { apply existsb_exists. exists r. auto. }
    congruence.
  - intros Hall. destruct (existsb _ rows) eqn:X; [|reflexivity].
    apply existsb_exists in X. destruct X as [r [Hin C]].
    rewrite (Hall r Hin) in C. discriminate.
Qed.

Lemma users_unique_app (rows : list user.row) (u : user.row) :
  users_unique rows ->
  (forall r, In r rows -> user_clash r u = false) ->
  users_unique (rows ++ [u]).
Proof.
  unfold users_unique. induction 1 as [|x rows Hx _ IH]; simpl; intros Hu.
  - repeat constructor.
  - constructor.
    + apply Forall_app. split; [exact Hx|].
      constructor; [|constructor]. apply Hu. auto.
    + apply IH. intros r Hr. apply Hu. auto.
Qed.

Lemma users_unique_replace (i : Z) (u : user.row) (rows : list user.row) :
  user.id u = Some i ->
  NoDup (map user.id rows) ->
  users_unique rows ->
  (forall r, In r rows -> has_pk i r = false -> user_clash r u = false) ->
  users_unique (map (fun r => if has_pk i r then u else r) rows).
Proof.
  intros Hu Hnd Huniq. revert Hnd.
  unfold users_unique in *.
  induction Huniq as [|x rows Hx Hrest IH]; simpl; intros Hnd Hall.
  - constructor.
  - inversion Hnd as [|k ks Hk Hnd']; subst.
    destruct (has_pk i x) eqn:Ex.
    + assert (Hf : ~ In (Some i) (map user.id rows)).
      { apply (@has_pk_iff user.row user_model) in Ex. simpl in Ex.
        congruence. }
      destruct (@replace_fresh user.row user_model i u rows Hf) as [R _].
      rewrite R. constructor; [|exact Hrest].
      apply Forall_forall. intros r Hr.
      rewrite user_clash_sym. apply Hall; [auto|].
      destruct (has_pk i r) eqn:Er; [|reflexivity].
      exfalso. apply Hf. apply in_map_iff. exists r.
      apply (@has_pk_iff user.row user_model) in Er. auto.
    + constructor.
      * apply Forall_forall. intros r Hr. apply in_map_iff in Hr.
        destruct Hr as [y [<- Hy]].
        destruct (has_pk i y).
        -- apply Hall; auto.
        -- rewrite Forall_forall in Hx. auto.
      * apply IH; [exact Hnd'|]. intros r Hr. apply Hall. auto.
Qed.

(** Where no two users collide, a username is held by one row at most. *)
Lemma users_unique_count (rows : list user.row) (n : string) :
  users_unique rows -> (count_username n rows <= 1)%nat.
Proof.
  unfold users_unique, count_username.
  induction 1 as [|x rows Hx _ IH]; simpl; [lia|].
  destruct (sql_eq_str (user.username x) (Some n)) eqn:E; [|simpl; lia].
  assert (Z0 : count_if (fun r => sql_eq_str (user.username r) (Some n)) rows
               = 0%nat).
  { clear IH. induction Hx as [|r rows Hr _ IHx]; simpl; [reflexivity|].
    rewrite IHx.
    destruct (sql_eq_str (user.username r) (Some n)) eqn:Er; [|reflexivity].
    exfalso. unfold user_clash in Hr. apply orb_false_iff in Hr.
    destruct Hr as [Hr _].
    destruct (user.username x) as [a|], (user.username r) as [b|];
      simpl in *; try discriminate.
    apply String.eqb_eq in E, Er. subst.
    rewrite String.eqb_refl in Hr. discriminate. }
  rewrite Z0. simpl. lia.
Qed.

(** X2.  In a store whose users have distinct keys and share no username
    and no email, [save] of a user leaves a store of the same kind;
    afterwards a username is still held by one row at most. *)
Theorem save_keeps_users_unique (u : user.row) (w : World) :
  keys_ok (users (store w)) ->
  users_unique (users (store w)) ->
  users_unique (users (store (world_after (call save u w))))
  /\ forall n : string,
       (count_username n (users (store (world_after (call save u w))))
        <= 1)%nat.
Proof.
  intros [_ Hnd] Huniq.
  assert (G : users_unique (users (store (world_after (call save u w))))).
  { unfold world_after, call. rewrite save_unfold. simpl.
    destruct (flush (clock w) u (store w)) as [[u' d']|e] eqn:E; simpl;
      [|exact Huniq].
    refine (match @flush_ok_cases user.row user_model _ _ _ _ _ _ _ _ E with
            | ex_intro _ i (conj Hi (conj _ C)) => _
            end); model_laws.
    simpl in *.
    destruct C as [[-> [Hin [U Ht]]]|[_ [Hf [U Ht]]]]; rewrite Ht.
    - apply users_unique_replace; auto.
      intros r Hr Er. apply (proj1 (user_unique_ok_iff _ _) U).
      apply filter_In. split; [exact Hr|]. rewrite Er. reflexivity.
    - apply users_unique_app; [exact Huniq|].
      apply user_unique_ok_iff. exact U. }
  split; [exact G|]. intros n. apply users_unique_count. exact G.
Qed.

Lemma users_unique_world_with_bob : users_unique (users (store world_with_bob)).
Proof.
  vm_compute. repeat constructor.
Qed.

Lemma save_keeps_users_unique_witness :
  users_unique (users (store (world_after (call save bob world_with_bob))))
  /\ forall n : string,
       (count_username n
          (users (store (world_after (call save bob world_with_bob))))
        <= 1)%nat.
Proof.
  exact (save_keeps_users_unique bob world_with_bob keys_ok_world_with_bob
           users_unique_world_with_bob).
Defined.

(** ** Round trips through the store *)

(** X3.  After [save] of a todo list or a todo that is new and carries no
    key, or that is a row of the store, the object has a primary key, and
    [query.get] of that key returns the object exactly as [save] returned
    it. *)
Theorem save_then_query_get :
  (forall (l : todolist.row) (w : World),
      todolist.id l = None \/ In l (todolists (store w)) ->
      exists i : Z,
        todolist.id (self_after (call save l w)) = Some i
        /\ query_get i (store (world_after (call save l w)))
           = Some (self_after (call save l w)))
  /\ (forall (t : todo.row) (w : World),
         todo.id t = None \/ In t (todos (store w)) ->
         exists i : Z,
           todo.id (self_after (call save t w)) = Some i
           /\ query_get i (store (world_after (call save t w)))
              = Some (self_after (call save t w))).
Proof.
  split.
  - intros l w _.
    destruct (todolist_flush_ok (clock w) l (store w)) as [l' [d' E]].
    unfold self_after, world_after, call. rewrite save_unfold. simpl.
    rewrite E. simpl.
    refine (@flush_then_get todolist.row todolist_model _ _ _ _ _ _ _ _ E);
      model_laws.
  - intros t w _.
    destruct (todo_flush_accepts (clock w) t (store w)) as [t' [d' E]].
    unfold self_after, world_after, call. rewrite save_unfold. simpl.
    rewrite E. simpl.
    refine (@flush_then_get todo.row todo_model _ _ _ _ _ _ _ _ E);
      model_laws.
Qed.

Lemma save_then_query_get_witness :
  (exists i : Z,
      todolist.id
        (self_after
           (call save (TodoList.__init__ (Some "groceries") None None
                         sample_world) sample_world)) = Some i
      /\ query_get i
           (store
              (world_after
                 (call save (TodoList.__init__ (Some "groceries") None None
                               sample_world) sample_world)))
         = Some
             (self_after
                (call save (TodoList.__init__ (Some "groceries") None None
                              sample_world) sample_world)))
  /\ (exists i : Z,
         todo.id
           (self_after
              (call save
                 (todo.mk (Some 2%Z) (Some "eggs") (Some 1000%Z) None
                          (Some false) None (Some 1%Z))
                 world_with_todos)) = Some i
         /\ query_get i
              (store
                 (world_after
                    (call save
                       (todo.mk (Some 2%Z) (Some "eggs") (Some 1000%Z) None
                                (Some false) None (Some 1%Z))
                       world_with_todos)))
            = Some
                (self_after
                   (call save
                      (todo.mk (Some 2%Z) (Some "eggs") (Some 1000%Z) None
                               (Some false) None (Some 1%Z))
                      world_with_todos))).
Proof.
  split.
  - refine (proj1 save_then_query_get
              (TodoList.__init__ (Some "groceries") None None sample_world)
              sample_world _).
    left. reflexivity.
  - refine (proj2 save_then_query_get
              (todo.mk (Some 2%Z) (Some "eggs") (Some 1000%Z) None
                       (Some false) None (Some 1%Z))
              world_with_todos _).
    right. vm_compute. right. left. reflexivity.
Defined.

(** X4.  Saving twice is saving once: in a table with distinct keys,
    [save] of the object that [save] returned changes neither the store
    nor the object. *)
Theorem save_is_idempotent :
  (forall (u : user.row) (w : World),
      keys_ok (users (store w)) ->
      call save (self_after (call save u w)) (world_after (call save u w))
      = call save u w)
  /\ (forall (l : todolist.row) (w : World),
         keys_ok (todolists (store w)) ->
         call save (self_after (call save l w)) (world_after (call save l w))
         = call save l w)
  /\ (forall (t : todo.row) (w : World),
         keys_ok (todos (store w)) ->
         call save (self_after (call save t w)) (world_after (call save t w))
         = call save t w).
Proof.
  split; [|split]; intros o w K.
  - refine (@save_again_any user.row user_model _ _ _ _ o w K); model_laws.
  - refine (@save_again_any todolist.row todolist_model _ _ _ _ o w K);
      model_laws.
  - refine (@save_again_any todo.row todo_model _ _ _ _ o w K); model_laws.
Qed.

Lemma save_is_idempotent_witness :
  call save (self_after (call save bob world_with_bob))
       (world_after (call save bob world_with_bob))
  = call save bob world_with_bob.
Proof.
  exact (proj1 save_is_idempotent bob world_with_bob keys_ok_world_with_bob).
Defined.

(** X5.  [save] writes one row of its own table and nothing else: every
    row stored under another key than the object's stays, the table never
    shrinks and grows by one row at most, and the two other tables are left
    as they are. *)
Theorem save_writes_one_row :
  (forall (u : user.row) (w : World),
      (forall r : user.row,
          In r (users (store w)) ->
          user.id r <> user.id (self_after (call save u w)) ->
          In r (users (store (world_after (call save u w)))))
      /\ List.length (users (store (world_after (call save u w))))
         <= S (List.length (users (store w)))
      /\ List.length (users (store w))
         <= List.length (users (store (world_after (call save u w))))
      /\ todolists (store (world_after (call save u w)))
         = todolists (store w)
      /\ todos (store (world_after (call save u w))) = todos (store w))
  /\ (forall (l : todolist.row) (w : World),
         (forall r : todolist.row,
             In r (todolists (store w)) ->
             todolist.id r <> todolist.id (self_after (call save l w)) ->
             In r (todolists (store (world_after (call save l w)))))
         /\ List.length (todolists (store (world_after (call save l w))))
            <= S (List.length (todolists (store w)))
         /\ List.length (todolists (store w))
            <= List.length (todolists (store (world_after (call save l w))))
         /\ users (store (world_after (call save l w))) = users (store w)
         /\ todos (store (world_after (call save l w))) = todos (store w))
  /\ (forall (t : todo.row) (w : World),
         (forall r : todo.row,
             In r (todos (store w)) ->
             todo.id r <> todo.id (self_after (call save t w)) ->
             In r (todos (store (world_after (call save t w)))))
         /\ List.length (todos (store (world_after (call save t w))))
            <= S (List.length (todos (store w)))
         /\ List.length (todos (store w))
            <= List.length (todos (store (world_after (call save t w))))
         /\ users (store (world_after (call save t w))) = users (store w)
         /\ todolists (store (world_after (call save t w)))
            = todolists (store w)).
Proof.
  split; [|split]; intros o w.
  - refine (match @save_keeps_other_rows_any user.row user_model
                    _ _ _ _ o w with
            | conj P1 (conj P2 (ex_intro _ rows P3)) => _
            end); model_laws.
    split; [exact P1|]. simpl in P2.
    split; [lia|]. split; [lia|].
    rewrite P3. split; reflexivity.
  - refine (match @save_keeps_other_rows_any todolist.row todolist_model
                    _ _ _ _ o w with
            | conj P1 (conj P2 (ex_intro _ rows P3)) => _
            end); model_laws.
    split; [exact P1|]. simpl in P2.
    split; [lia|]. split; [lia|].
    rewrite P3. split; reflexivity.
  - refine (match @save_keeps_other_rows_any todo.row todo_model
                    _ _ _ _ o w with
            | conj P1 (conj P2 (ex_intro _ rows P3)) => _
            end); model_laws.
    split; [exact P1|]. simpl in P2.
    split; [lia|]. split; [lia|].
    rewrite P3. split; reflexivity.
Qed.

(** ** [load_user] *)

Section LoadUserFacts.

Variable int : string -> result Z.


(** X7.  A new user that collides with no stored user is stored by [save]
    under a key that no user had, and [load_user] of that key returns the
    user as [save] returned it. *)
Theorem load_user_after_save (u : user.row) (w : World) :
  user.id u = None ->
  (forall r : user.row, In r (users (store w)) -> user_clash r u = false) ->
  exists i : Z,
    user.id (self_after (call save u w)) = Some i
    /\ ~ In (Some i) (map user.id (users (store w)))
    /\ forall user_id : string,
         int user_id = Ok i ->
         load_user int user_id (world_after (call save u w))
         = Ok (Some (self_after (call save u w))).
Proof.
  intros Hid Hfree.
  pose (u' := set_pk (next_id (users (store w)))
                (column_defaults (clock w) u)).
  assert (U : unique_ok (users (store w)) u' = true).
  { apply user_unique_ok_iff. intros r Hr. rewrite <- (Hfree r Hr).
    reflexivity. }
  assert (E : flush (clock w) u (store w)
              = Ok (u', set_table (users (store w) ++ [u']) (store w))).
  { unfold flush. change (pk u) with (user.id u). rewrite Hid.
    change (insert u' (store w)
            = Ok (u', set_table (users (store w) ++ [u']) (store w))).
    unfold insert. change (table (store w)) with (users (store w)).
    rewrite U. reflexivity. }
  unfold self_after, world_after, call. rewrite save_unfold. simpl.
  rewrite E. simpl.
  exists (next_id (users (store w))).
  split; [reflexivity|].
  split; [apply (@next_id_fresh user.row user_model)|].
  intros user_id Hint. unfold load_user. rewrite Hint. f_equal.
  unfold query_get. simpl table.
  apply (@find_app_fresh user.row user_model).
  - reflexivity.
  - apply (@next_id_fresh user.row user_model).
Qed.

End LoadUserFacts.


Lemma load_user_after_save_witness :
  exists i : Z,
    user.id (self_after (call save bob sample_world)) = Some i
    /\ ~ In (Some i) (map user.id (users (store sample_world)))
    /\ forall user_id : string,
         int_of_digits user_id = Ok i ->
         load_user int_of_digits user_id
           (world_after (call save bob sample_world))
         = Ok (Some (self_after (call save bob sample_world))).
Proof.
  apply (load_user_after_save int_of_digits bob sample_world).
  - reflexivity.
  - intros r [].
Defined.

(** ** [User.seen] and [User.promote_to_admin] *)

Lemma NoDup_map_eq {A B : Type} (f : A -> B) (l : list A) (x y : A) :
  NoDup (map f l) -> In x l -> In y l -> f x = f y -> x = y.
Proof.
  induction l as [|a l IH]; simpl; [tauto|].
  intros Hnd Hx Hy E. inversion Hnd as [|k ks Hk Hnd']; subst.
  destruct Hx as [->|Hx], Hy as [->|Hy]; auto.
  - exfalso. apply Hk. rewrite E. apply in_map. exact Hy.
  - exfalso. apply Hk. rewrite <- E. apply in_map. exact Hx.
Qed.

(** A stored user that is saved with its key, username and email as they
    are stored is always accepted: the row is replaced, no row is added
    and no other row changes. *)
Lemma save_stored_user (u u1 : user.row) (w : World) :
  keys_ok (users (store w)) ->
  users_unique (users (store w)) ->
  In u (users (store w)) ->
  user.id u1 = user.id u ->
  user.username u1 = user.username u ->
  user.email u1 = user.email u ->
  fst (call save u1 w) = Ok u1
  /\ self_after (call save u1 w) = u1
  /\ (exists i : Z,
         user.id u = Some i
         /\ query_get i (store (world_after (call save u1 w))) = Some u1)
  /\ List.length (users (store (world_after (call save u1 w))))
     = List.length (users (store w))
  /\ (forall x : user.row,
         In x (users (store w)) -> x <> u ->
         In x (users (store (world_after (call save u1 w))))).
Proof.
  intros [Hnn Hnd] Huniq Hin Hid Hname Hmail.
  assert (Hi : exists i, user.id u = Some i).
  { rewrite Forall_forall in Hnn. specialize (Hnn u Hin). simpl in Hnn.
    destruct (user.id u) as [i|]; [eauto|congruence]. }
  destruct Hi as [i Hi].
  assert (Hex : existsb (has_pk i) (users (store w)) = true).
  { apply existsb_exists. exists u. split; [exact Hin|].
    apply (@has_pk_iff user.row user_model). exact Hi. }
  assert (U : unique_ok (filter (fun r => negb (has_pk i r))
                                (users (store w))) u1 = true).
  { apply user_unique_ok_iff. intros r Hr. apply filter_In in Hr.
    destruct Hr as [Hr Hne]. apply negb_true_iff in Hne.
    assert (C : user_clash r u = false).
    { destruct (ForallOrdPairs_In Huniq r u Hr Hin) as [->|[C|C]].
      - apply (@has_pk_iff user.row user_model) in Hi. congruence.
      - exact C.
      - rewrite user_clash_sym. exact C. }
    unfold user_clash in *. rewrite Hname, Hmail. exact C. }
  assert (E : flush (clock w) u1 (store w)
              = Ok (u1, set_table (map (fun r => if has_pk i r then u1 else r)
                                       (users (store w))) (store w))).
  { unfold flush. change (pk u1) with (user.id u1). rewrite Hid, Hi.
    change (table (store w)) with (users (store w)). rewrite Hex.
    unfold update. change (table (store w)) with (users (store w)).
    rewrite U. reflexivity. }
  unfold self_after, world_after, call. rewrite save_unfold. simpl.
  rewrite E. simpl.
  split; [reflexivity|]. split; [reflexivity|]. split; [|split].
  - exists i. split; [exact Hi|].
    apply (@find_replace user.row user_model).
    + simpl. congruence.
    + apply in_map_iff. exists u. auto.
  - apply length_map.
  - intros x Hx Hne. apply in_map_iff. exists x. split; [|exact Hx].
    destruct (has_pk i x) eqn:Ex; [|reflexivity].
    exfalso. apply Hne.
    apply (@has_pk_iff user.row user_model) in Ex. simpl in Ex.
    apply (NoDup_map_eq user.id _ x u Hnd Hx Hin). congruence.
Qed.

(** X8.  [seen()] on a stored user, in a store with distinct keys,
    usernames and emails, returns the user with [last_seen] at the current
    time and nothing else changed; the user is stored in this form under
    its key, no row is added, and the other users stay as they are. *)
Theorem seen_updates_last_seen (u : user.row) (w : World) :
  keys_ok (users (store w)) ->
  users_unique (users (store w)) ->
  In u (users (store w)) ->
  fst (call User.seen u w) = Ok (user.set_last_seen (Some (clock w)) u)
  /\ self_after (call User.seen u w) = user.set_last_seen (Some (clock w)) u
  /\ (exists i : Z,
         user.id u = Some i
         /\ query_get i (store (world_after (call User.seen u w)))
            = Some (user.set_last_seen (Some (clock w)) u))
  /\ List.length (users (store (world_after (call User.seen u w))))
     = List.length (users (store w))
  /\ (forall x : user.row,
         In x (users (store w)) -> x <> u ->
         In x (users (store (world_after (call User.seen u w))))).
Proof.
  intros K Huniq Hin.
  change (call User.seen u w)
    with (call save (user.set_last_seen (Some (clock w)) u) w).
  apply save_stored_user; auto.
Qed.

(** X9.  [promote_to_admin()] on a stored user, in a store with distinct
    keys, usernames and emails, returns the user with [is_admin] true and
    nothing else changed; the user is stored in this form under its key,
    no row is added, and the other users stay as they are. *)
Theorem promote_to_admin_sets_is_admin (u : user.row) (w : World) :
  keys_ok (users (store w)) ->
  users_unique (users (store w)) ->
  In u (users (store w)) ->
  fst (call User.promote_to_admin u w) = Ok (user.set_is_admin (Some true) u)
  /\ self_after (call User.promote_to_admin u w)
     = user.set_is_admin (Some true) u
  /\ (exists i : Z,
         user.id u = Some i
         /\ query_get i (store (world_after (call User.promote_to_admin u w)))
            = Some (user.set_is_admin (Some true) u))
  /\ List.length (users (store (world_after (call User.promote_to_admin u w))))
     = List.length (users (store w))
  /\ (forall x : user.row,
         In x (users (store w)) -> x <> u ->
         In x (users (store (world_after (call User.promote_to_admin u w))))).
Proof.
  intros K Huniq Hin.
  change (call User.promote_to_admin u w)
    with (call save (user.set_is_admin (Some true) u) w).
  apply save_stored_user; auto.
Qed.

Lemma stored_bob_in_world_with_bob :
  In (self_after (call save bob sample_world)) (users (store world_with_bob)).
Proof.
  left. reflexivity.
Qed.

Lemma seen_updates_last_seen_witness :
  self_after (call User.seen (self_after (call save bob sample_world))
                   world_with_bob)
  = user.set_last_seen (Some (clock world_with_bob))
      (self_after (call save bob sample_world)).
Proof.
  apply (seen_updates_last_seen (self_after (call save bob sample_world))
           world_with_bob keys_ok_world_with_bob users_unique_world_with_bob
           stored_bob_in_world_with_bob).
Defined.

Lemma promote_to_admin_sets_is_admin_witness :
  self_after (call User.promote_to_admin
                   (self_after (call save bob sample_world)) world_with_bob)
  = user.set_is_admin (Some true) (self_after (call save bob sample_world)).
Proof.
  apply (promote_to_admin_sets_is_admin
           (self_after (call save bob sample_world))
           world_with_bob keys_ok_world_with_bob users_unique_world_with_bob
           stored_bob_in_world_with_bob).
Defined.

(** ** [TodoList.change_title] *)

Lemma todolist_flush_keeps_title (now : datetime) (l l' : todolist.row)
    (d d' : DB) :
  flush now l d = Ok (l', d') ->
  todolist.title l' = todolist.title l /\ todos d' = todos d.
Proof.
  intros E.
  refine (match @flush_ok_cases todolist.row todolist_model _ _ _ _ _ _ _ _ E
          with
          | ex_intro _ i (conj Hi (conj Hd C)) => _
          end); model_laws.
  split.
  - destruct C as [[-> _]|[[-> | ->] _]]; reflexivity.
  - rewrite Hd. reflexivity.
Qed.

(** X10.  [change_title] validates nothing: on a new list that carries no
    key, or on a list that is a row of the store, whatever the new title,
    be it [None], empty or longer than 128 characters, the call returns
    normally, the list carries exactly that title and is stored with it
    under its key, and no todo is touched. *)
Theorem change_title_stores_any_title
    (new_title : option string) (l : todolist.row) (w : World) :
  todolist.id l = None \/ In l (todolists (store w)) ->
  fst (call (TodoList.change_title new_title) l w) = Ok tt
  /\ todolist.title (self_after (call (TodoList.change_title new_title) l w))
     = new_title
  /\ (exists i : Z,
         todolist.id (self_after (call (TodoList.change_title new_title) l w))
         = Some i
         /\ query_get i
              (store (world_after (call (TodoList.change_title new_title) l w)))
            = Some (self_after (call (TodoList.change_title new_title) l w)))
  /\ todos (store (world_after (call (TodoList.change_title new_title) l w)))
     = todos (store w).
Proof.
  intros _.
  pose (l1 := todolist.set_title new_title l).
  destruct (todolist_flush_ok (clock w) l1 (store w)) as [l' [d' E]].
  assert (R : call (TodoList.change_title new_title) l w
              = (Ok tt, mkCtx l' false (set_store d' w))).
  { unfold call, TodoList.change_title, bind, modify, on_self, ret. simpl.
    fold l1. rewrite save_unfold. simpl. rewrite E. reflexivity. }
  rewrite R. unfold self_after, world_after. simpl.
  destruct (todolist_flush_keeps_title _ _ _ E) as [Ht Htodos].
  split; [reflexivity|]. split; [rewrite Ht; reflexivity|].
  split; [|exact Htodos].
  refine (@flush_then_get todolist.row todolist_model _ _ _ _ _ _ _ _ E);
    model_laws.
Qed.

Lemma change_title_stores_any_title_witness :
  fst (call (TodoList.change_title None) groceries world_with_todos) = Ok tt
  /\ todolist.title
       (self_after (call (TodoList.change_title None) groceries
                         world_with_todos))
     = None
  /\ (exists i : Z,
         todolist.id
           (self_after (call (TodoList.change_title None) groceries
                             world_with_todos))
         = Some i
         /\ query_get i
              (store (world_after (call (TodoList.change_title None) groceries
                                        world_with_todos)))
            = Some (self_after (call (TodoList.change_title None) groceries
                                     world_with_todos)))
  /\ todos (store (world_after (call (TodoList.change_title None) groceries
                                     world_with_todos)))
     = todos (store world_with_todos).
Proof.
  refine (change_title_stores_any_title None groceries world_with_todos _).
  right. left. reflexivity.
Defined.

(** ** How the counts of a list follow its todos *)

Lemma count_if_app {A : Type} (p : A -> bool) (l1 l2 : list A) :
  count_if p (l1 ++ l2) = (count_if p l1 + count_if p l2)%nat.
Proof.
  induction l1 as [|x l1 IH]; simpl; [reflexivity|].
  rewrite IH. lia.
Qed.

(** Replacing the row of a key by another row moves the count by the two
    rows' own contributions. *)
Lemma count_if_replace (p : todo.row -> bool) (i : Z) (t t1 : todo.row)
    (rows : list todo.row) :
  NoDup (map todo.id rows) ->
  In t rows ->
  todo.id t = Some i ->
  (count_if p (map (fun r => if has_pk i r then t1 else r) rows)
   + (if p t then 1 else 0)
   = count_if p rows + (if p t1 then 1 else 0))%nat.
Proof.
  intros Hnd Hin Hi.
  induction rows as [|r rows IH]; simpl; [contradiction|].
  inversion Hnd as [|k ks Hk Hnd']; subst.
  destruct Hin as [->|Hin].
  - assert (E : has_pk i t = true)
      by (apply (@has_pk_iff todo.row todo_model); exact Hi).
    rewrite E.
    assert (Hf : ~ In (Some i) (map todo.id rows)) by congruence.
    destruct (@replace_fresh todo.row todo_model i t1 rows Hf) as [R _].
    rewrite R. lia.
  - assert (E : has_pk i r = false).
    { destruct (has_pk i r) eqn:E; [|reflexivity].
      apply (@has_pk_iff todo.row todo_model) in E. simpl in E.
      exfalso. apply Hk. rewrite E, <- Hi. apply in_map. exact Hin. }
    rewrite E. specialize (IH Hnd' Hin). lia.
Qed.

(** A stored todo that is saved under its key is written in the place of
    its row. *)
Lemma save_stored_todo (t t1 : todo.row) (w : World) :
  keys_ok (todos (store w)) ->
  In t (todos (store w)) ->
  todo.id t1 = todo.id t ->
  exists i : Z,
    todo.id t = Some i
    /\ save (mkCtx t1 false w)
       = (Ok t1,
          mkCtx t1 false
            (set_store
               (mkDB (users (store w)) (todolists (store w))
                     (map (fun r => if has_pk i r then t1 else r)
                          (todos (store w))))
               w)).
Proof.
  intros [Hnn _] Hin Hid.
  rewrite Forall_forall in Hnn. specialize (Hnn t Hin). simpl in Hnn.
  destruct (todo.id t) as [i|] eqn:Hi; [|congruence].
  exists i. split; [reflexivity|].
  assert (Hex : existsb (has_pk i) (todos (store w)) = true).
  { apply existsb_exists. exists t. split; [exact Hin|].
    apply (@has_pk_iff todo.row todo_model). exact Hi. }
  rewrite save_unfold. simpl.
  unfold flush. change (pk t1) with (todo.id t1). rewrite Hid.
  change (table (store w)) with (todos (store w)). rewrite Hex.
  reflexivity.
Qed.

Lemma finished_stored_todo (t : todo.row) (w : World) :
  keys_ok (todos (store w)) ->
  In t (todos (store w)) ->
  exists i : Z,
    todo.id t = Some i
    /\ call Todo.finished t w
       = (Ok tt,
          mkCtx (todo.set_finished_at (Some (clock w))
                   (todo.set_is_finished (Some true) t))
                false
            (set_store
               (mkDB (users (store w)) (todolists (store w))
                     (map (fun r =>
                             if has_pk i r
                             then todo.set_finished_at (Some (clock w))
                                    (todo.set_is_finished (Some true) t)
                             else r)
                          (todos (store w))))
               w)).
Proof.
  intros K Hin.
  destruct (@save_stored_todo t
              (todo.set_finished_at (Some (clock w))
                 (todo.set_is_finished (Some true) t)) w K Hin eq_refl)
    as [i [Hi E]].
  exists i. split; [exact Hi|].
  unfold call, Todo.finished, bind, modify, utcnow, gets, on_self, ret.
  simpl. rewrite E. reflexivity.
Qed.

Lemma reopen_stored_todo (t : todo.row) (w : World) :
  keys_ok (todos (store w)) ->
  In t (todos (store w)) ->
  exists i : Z,
    todo.id t = Some i
    /\ call Todo.reopen t w
       = (Ok tt,
          mkCtx (todo.set_finished_at None
                   (todo.set_is_finished (Some false) t))
                false
            (set_store
               (mkDB (users (store w)) (todolists (store w))
                     (map (fun r =>
                             if has_pk i r
                             then todo.set_finished_at None
                                    (todo.set_is_finished (Some false) t)
                             else r)
                          (todos (store w))))
               w)).
Proof.
  intros K Hin.
  destruct (@save_stored_todo t
              (todo.set_finished_at None
                 (todo.set_is_finished (Some false) t)) w K Hin eq_refl)
    as [i [Hi E]].
  exists i. split; [exact Hi|].
  unfold call, Todo.reopen, bind, modify, on_self, ret.
  simpl. rewrite E. reflexivity.
Qed.

(** X11.  [Todo.from_dict] with the key of a stored list returns an open
    todo and raises the list's [count_todos()] and [count_open()] by one;
    [count_finished()] stays, and so do the counts of every other list. *)
Theorem add_todo_counts (k : Todo.model_dict) (l : todolist.row) (w : World) :
  todolist.id l <> None ->
  Todo.todolist_id k = todolist.id l ->
  let r := from_dict Todo.construct k w in
  (exists t : todo.row,
      fst r = Ok t /\ Todo.status t = "open"
      /\ In t (todos (store (snd r))))
  /\ (forall n : nat,
         fst (call TodoList.count_todos l w) = Ok n ->
         fst (call TodoList.count_todos l (snd r)) = Ok (S n))
  /\ (forall n : nat,
         fst (call TodoList.count_open l w) = Ok n ->
         fst (call TodoList.count_open l (snd r)) = Ok (S n))
  /\ fst (call TodoList.count_finished l (snd r))
     = fst (call TodoList.count_finished l w)
  /\ (forall l2 : todolist.row,
         todolist.id l2 <> todolist.id l ->
         fst (call TodoList.count_todos l2 (snd r))
         = fst (call TodoList.count_todos l2 w)).
Proof.
  intros Hl Hk r.
  destruct (todolist.id l) as [li|] eqn:El; [clear Hl|congruence].
  pose (t0 := Todo.__init__ (Todo.description k) (Todo.todolist_id k)
                (Todo.creator k) (Todo.created_at k) w).
  pose (t' := set_pk (next_id (todos (store w)))
                (column_defaults (clock w) t0)).
  assert (R : r = (Ok t',
                   set_store (mkDB (users (store w)) (todolists (store w))
                                   (todos (store w) ++ [t'])) w)).
  { unfold r, from_dict, Todo.construct. fold t0.
    unfold call. rewrite save_unfold. reflexivity. }
  clearbody r. subst r.
  assert (Bl : belongs_to l t' = true).
  { unfold belongs_to. simpl. rewrite Hk, El. simpl. apply Z.eqb_refl. }
  cbn [fst snd].
  assert (C : forall p : todo.row -> bool,
             count_if p (todos (store w) ++ [t'])
             = (count_if p (todos (store w)) + (if p t' then 1 else 0))%nat).
  { intros p. rewrite count_if_app. simpl. lia. }
  split; [|split; [|split; [|split]]].
  - exists t'. split; [reflexivity|]. split; [reflexivity|].
    apply in_or_app. right. left. reflexivity.
  - intros n. rewrite !count_todos_run. cbn [fst store set_store todos].
    rewrite C, Bl. intros E. injection E as <-. f_equal. lia.
  - intros n. rewrite !count_open_run. cbn [fst store set_store todos].
    rewrite C, Bl. intros E. injection E as <-. f_equal. simpl. lia.
  - rewrite !count_finished_run. cbn [fst store set_store todos].
    rewrite C, Bl. f_equal. simpl. lia.
  - intros l2 Hne.
    rewrite !count_todos_run. cbn [fst store set_store todos].
    assert (B2 : belongs_to l2 t' = false).
    { unfold belongs_to. simpl. rewrite Hk.
      destruct (todolist.id l2) as [j|]; simpl; [|reflexivity].
      apply Z.eqb_neq. congruence. }
    rewrite C, B2. f_equal. lia.
Qed.

Lemma add_todo_counts_witness :
  fst (call TodoList.count_todos groceries
         (snd (from_dict Todo.construct
                 (Todo.mk_dict (Some "rice") (todolist.id groceries) None None)
                 world_with_todos)))
  = Ok 4%nat.
Proof.
  apply (add_todo_counts
           (Todo.mk_dict (Some "rice") (todolist.id groceries) None None)
           groceries world_with_todos).
  - discriminate.
  - reflexivity.
  - reflexivity.
Defined.

(** X12.  [finished()] on a stored open todo of a list, in a table with
    distinct keys, raises the list's [count_finished()] by one, lowers its
    [count_open()] by one and keeps its [count_todos()]. *)
Theorem finished_moves_open_to_finished
    (t : todo.row) (l : todolist.row) (w : World) :
  keys_ok (todos (store w)) ->
  In t (todos (store w)) ->
  todo.is_finished t = Some false ->
  belongs_to l t = true ->
  let w' := world_after (call Todo.finished t w) in
  (forall n : nat,
      fst (call TodoList.count_finished l w) = Ok n ->
      fst (call TodoList.count_finished l w') = Ok (S n))
  /\ (forall n : nat,
         fst (call TodoList.count_open l w') = Ok n ->
         fst (call TodoList.count_open l w) = Ok (S n))
  /\ fst (call TodoList.count_todos l w')
     = fst (call TodoList.count_todos l w).
Proof.
  intros K Hin Hopen Hl w'.
  destruct (finished_stored_todo t w K Hin) as [i [Hi E]].
  unfold w', world_after. rewrite E. cbn [snd world]. clear w' E.
  set (t1 := todo.set_finished_at (Some (clock w))
               (todo.set_is_finished (Some true) t)).
  destruct K as [_ Hnd].
  assert (C : forall p : todo.row -> bool,
             (count_if p (map (fun r => if has_pk i r then t1 else r)
                              (todos (store w)))
              + (if p t then 1 else 0)
              = count_if p (todos (store w)) + (if p t1 then 1 else 0))%nat).
  { intros p. apply count_if_replace; assumption. }
  assert (Hl1 : belongs_to l t1 = true) by exact Hl.
  rewrite !count_finished_run, !count_open_run, !count_todos_run.
  cbn [fst store set_store todos].
  pose proof (C (fun x => belongs_to l x && is_done x)) as Cf.
  pose proof (C (fun x => belongs_to l x
                          && sql_eq_bool (todo.is_finished x) (Some false)))
    as Co.
  pose proof (C (belongs_to l)) as Ct.
  cbv beta in Cf, Co. rewrite Hl, Hl1 in Ct.
  replace (belongs_to l t && is_done t) with false in Cf
    by (unfold is_done; rewrite Hl, Hopen; reflexivity).
  replace (belongs_to l t1 && is_done t1) with true in Cf
    by (rewrite Hl1; reflexivity).
  replace (belongs_to l t
           && sql_eq_bool (todo.is_finished t) (Some false)) with true in Co
    by (rewrite Hl, Hopen; reflexivity).
  replace (belongs_to l t1
           && sql_eq_bool (todo.is_finished t1) (Some false)) with false in Co
    by (rewrite Hl1; reflexivity).
  split; [|split].
  - intros n X. injection X as <-. f_equal. lia.
  - intros n X. injection X as <-. f_equal. lia.
  - f_equal. lia.
Qed.

(** X13.  [reopen()] on a stored finished todo of a list, in a table with
    distinct keys, raises the list's [count_open()] by one, lowers its
    [count_finished()] by one and keeps its [count_todos()]. *)
Theorem reopen_moves_finished_to_open
    (t : todo.row) (l : todolist.row) (w : World) :
  keys_ok (todos (store w)) ->
  In t (todos (store w)) ->
  todo.is_finished t = Some true ->
  belongs_to l t = true ->
  let w' := world_after (call Todo.reopen t w) in
  (forall n : nat,
      fst (call TodoList.count_open l w) = Ok n ->
      fst (call TodoList.count_open l w') = Ok (S n))
  /\ (forall n : nat,
         fst (call TodoList.count_finished l w') = Ok n ->
         fst (call TodoList.count_finished l w) = Ok (S n))
  /\ fst (call TodoList.count_todos l w')
     = fst (call TodoList.count_todos l w).
Proof.
  intros K Hin Hdone Hl w'.
  destruct (reopen_stored_todo t w K Hin) as [i [Hi E]].
  unfold w', world_after. rewrite E. cbn [snd world]. clear w' E.
  set (t1 := todo.set_finished_at None
               (todo.set_is_finished (Some false) t)).
  destruct K as [_ Hnd].
  assert (C : forall p : todo.row -> bool,
             (count_if p (map (fun r => if has_pk i r then t1 else r)
                              (todos (store w)))
              + (if p t then 1 else 0)
              = count_if p (todos (store w)) + (if p t1 then 1 else 0))%nat).
  { intros p. apply count_if_replace; assumption. }
  assert (Hl1 : belongs_to l t1 = true) by exact Hl.
  rewrite !count_finished_run, !count_open_run, !count_todos_run.
  cbn [fst store set_store todos].
  pose proof (C (fun x => belongs_to l x && is_done x)) as Cf.
  pose proof (C (fun x => belongs_to l x
                          && sql_eq_bool (todo.is_finished x) (Some false)))
    as Co.
  pose proof (C (belongs_to l)) as Ct.
  cbv beta in Cf, Co. rewrite Hl, Hl1 in Ct.
  replace (belongs_to l t && is_done t) with true in Cf
    by (unfold is_done; rewrite Hl, Hdone; reflexivity).
  replace (belongs_to l t1 && is_done t1) with false in Cf
    by (rewrite Hl1; reflexivity).
  replace (belongs_to l t
           && sql_eq_bool (todo.is_finished t) (Some false)) with false in Co
    by (rewrite Hl, Hdone; reflexivity).
  replace (belongs_to l t1
           && sql_eq_bool (todo.is_finished t1) (Some false)) with true in Co
    by (rewrite Hl1; reflexivity).
  split; [|split].
  - intros n X. injection X as <-. f_equal. lia.
  - intros n X. injection X as <-. f_equal. lia.
  - f_equal. lia.
Qed.

(** X14.  [finished()] followed by [reopen()] on a stored open todo, in a
    table with distinct keys, gives back the todo and the world exactly
    as they were. *)
Theorem finished_then_reopen_restores (t : todo.row) (w : World) :
  keys_ok (todos (store w)) ->
  In t (todos (store w)) ->
  todo.is_finished t = Some false ->
  todo.finished_at t = None ->
  Todo.reopen (snd (call Todo.finished t w)) = (Ok tt, mkCtx t false w).
Proof.
  intros K Hin Hopen Hat.
  destruct (finished_stored_todo t w K Hin) as [i [Hi E]].
  rewrite E. cbn [snd].
  set (t1 := todo.set_finished_at (Some (clock w))
               (todo.set_is_finished (Some true) t)).
  set (w1 := set_store _ w).
  assert (K1 : keys_ok (todos (store w1))).
  { apply (@keys_ok_replace todo.row todo_model); [exact Hi|exact K]. }
  assert (Hin1 : In t1 (todos (store w1))).
  { apply in_map_iff. exists t. split; [|exact Hin].
    assert (X : has_pk i t = true)
      by (apply (@has_pk_iff todo.row todo_model); exact Hi).
    rewrite X. reflexivity. }
  destruct (reopen_stored_todo t1 w1 K1 Hin1) as [j [Hj E1]].
  unfold call in E1. rewrite E1.
  assert (j = i) by (simpl in Hj; congruence). subst j.
  assert (T : todo.set_finished_at None (todo.set_is_finished (Some false) t1)
              = t).
  { destruct t. simpl in *. subst. reflexivity. }
  rewrite T.
  assert (F : find (has_pk i) (todos (store w)) = Some t).
  { destruct (find (has_pk i) (todos (store w))) as [x|] eqn:F.
    - apply find_some in F. destruct F as [Hx Ex].
      apply (@has_pk_iff todo.row todo_model) in Ex. simpl in Ex.
      f_equal. destruct K as [_ Hnd].
      apply (NoDup_map_eq todo.id _ x t Hnd Hx Hin). congruence.
    - apply (find_none _ _ F) in Hin.
      assert (X : has_pk i t = true)
        by (apply (@has_pk_iff todo.row todo_model); exact Hi).
      congruence. }
  assert (M : map (fun r => if has_pk i r then t else r) (todos (store w1))
              = todos (store w)).
  { unfold w1. cbn [store set_store todos].
    rewrite map_map.
    rewrite <- (@replace_self todo.row todo_model i t (todos (store w)))
      at 2; [|apply K|exact F].
    apply map_ext. intros r.
    destruct (has_pk i r) eqn:Er; [|rewrite Er; reflexivity].
    assert (X : has_pk i t1 = true)
      by (apply (@has_pk_iff todo.row todo_model); exact Hi).
    rewrite X. reflexivity. }
  rewrite M. unfold w1. destruct w as [[us ls ts] c e]. reflexivity.
Qed.


Lemma stored_eggs :
  In (todo.mk (Some 2%Z) (Some "eggs") (Some 1000%Z) None (Some false) None
              (Some 1%Z))
     (todos (store world_with_todos)).
Proof.
  vm_compute. right. left. reflexivity.
Qed.

Lemma stored_milk :
  In (todo.mk (Some 1%Z) (Some "milk") (Some 1000%Z) (Some 1000%Z) (Some true)
              None (Some 1%Z))
     (todos (store world_with_todos)).
Proof.
  vm_compute. left. reflexivity.
Qed.

Lemma keys_ok_world_with_todos : keys_ok (todos (store world_with_todos)).
Proof.
  split; vm_compute.
  - repeat constructor; discriminate.
  - repeat constructor; simpl; intuition discriminate.
Qed.

Lemma finished_moves_open_to_finished_witness :
  fst (call TodoList.count_finished groceries
         (world_after
            (call Todo.finished
               (todo.mk (Some 2%Z) (Some "eggs") (Some 1000%Z) None
                        (Some false) None (Some 1%Z))
               world_with_todos)))
  = Ok 2%nat.
Proof.
  refine (proj1 (finished_moves_open_to_finished
                   (todo.mk (Some 2%Z) (Some "eggs") (Some 1000%Z) None
                            (Some false) None (Some 1%Z))
                   groceries world_with_todos
                   keys_ok_world_with_todos stored_eggs _ _) 1%nat _);
    vm_compute; reflexivity.
Defined.

Lemma reopen_moves_finished_to_open_witness :
  fst (call TodoList.count_open groceries
         (world_after
            (call Todo.reopen
               (todo.mk (Some 1%Z) (Some "milk") (Some 1000%Z) (Some 1000%Z)
                        (Some true) None (Some 1%Z))
               world_with_todos)))
  = Ok 3%nat.
Proof.
  refine (proj1 (reopen_moves_finished_to_open
                   (todo.mk (Some 1%Z) (Some "milk") (Some 1000%Z)
                            (Some 1000%Z) (Some true) None (Some 1%Z))
                   groceries world_with_todos
                   keys_ok_world_with_todos stored_milk _ _) 2%nat _);
    vm_compute; reflexivity.
Defined.

Lemma finished_then_reopen_restores_witness :
  Todo.reopen
    (snd (call Todo.finished
            (todo.mk (Some 2%Z) (Some "eggs") (Some 1000%Z) None (Some false)
                     None (Some 1%Z))
            world_with_todos))
  = (Ok tt,
     mkCtx (todo.mk (Some 2%Z) (Some "eggs") (Some 1000%Z) None (Some false)
                    None (Some 1%Z))
           false world_with_todos).
Proof.
  exact (finished_then_reopen_restores
           (todo.mk (Some 2%Z) (Some "eggs") (Some 1000%Z) None (Some false)
                    None (Some 1%Z))
           world_with_todos keys_ok_world_with_todos stored_eggs
           eq_refl eq_refl).
Defined.

(** ** The dictionaries of [to_dict] *)

Section ToDictFacts.

Variable url_for : string -> dict -> string.

(** X15.  On a list that is a row of the store, [TodoList.to_dict]
    changes nothing and returns the seven keys of the literal; its three
    counts are those of [count_todos], [count_open] and [count_finished],
    and in a store whose todos carry no [NULL] flag the open and the
    finished count add up to the total. *)
Theorem todolist_to_dict_counts (l : todolist.row) (w : World) :
  In l (todolists (store w)) ->
  exists (d : dict) (total open done : nat),
    call (TodoList.to_dict url_for) l w = (Ok d, mkCtx l false w)
    /\ map fst d
       = ["title"; "creator"; "created_at"; "total_todo_count";
          "open_todo_count"; "finished_todo_count"; "todos"]
    /\ fst (call TodoList.count_todos l w) = Ok total
    /\ fst (call TodoList.count_open l w) = Ok open
    /\ fst (call TodoList.count_finished l w) = Ok done
    /\ dict_get "total_todo_count" d = Some (PyInt (Z.of_nat total))
    /\ dict_get "open_todo_count" d = Some (PyInt (Z.of_nat open))
    /\ dict_get "finished_todo_count" d = Some (PyInt (Z.of_nat done))
    /\ (is_finished_not_null (store w) -> (open + done = total)%nat).
Proof.
  intros _.
  pose proof (count_todos_run l w) as Rt.
  pose proof (count_open_run l w) as Ro.
  pose proof (count_finished_run l w) as Rf.
  unfold call in Rt, Ro, Rf.
  unfold call, TodoList.to_dict.
  unfold bind at 1. unfold gets at 1. cbn [self].
  unfold bind at 1. rewrite Rt.
  unfold bind at 1. rewrite Ro.
  unfold bind at 1. rewrite Rf.
  unfold ret.
  eexists. eexists. eexists. eexists.
  split; [reflexivity|]. split; [reflexivity|].
  split; [reflexivity|]. split; [reflexivity|]. split; [reflexivity|].
  split; [reflexivity|]. split; [reflexivity|]. split; [reflexivity|].
  intros Hwf.
  apply (count_open_plus_finished (belongs_to l) Hwf).
Qed.

(** X16.  [Todo.to_dict] changes nothing and returns the four keys of the
    literal, among which neither the key nor the flag nor the time of
    finishing; its status is "finished" exactly when [is_finished] is
    true, so it reads "finished" after [finished()] and "open" after
    [reopen()]. *)
Theorem todo_to_dict_status (t : todo.row) (w : World) :
  exists d : dict,
    call Todo.to_dict t w = (Ok d, mkCtx t false w)
    /\ map fst d = ["description"; "creator"; "created_at"; "status"]
    /\ (dict_get "status" d = Some (PyStr "finished")
        <-> todo.is_finished t = Some true)
    /\ (dict_get "status" d = Some (PyStr "open")
        <-> todo.is_finished t <> Some true)
    /\ (exists d1 : dict,
           fst (Todo.to_dict (snd (call Todo.finished t w))) = Ok d1
           /\ dict_get "status" d1 = Some (PyStr "finished"))
    /\ (exists d2 : dict,
           fst (Todo.to_dict (snd (call Todo.reopen t w))) = Ok d2
           /\ dict_get "status" d2 = Some (PyStr "open")).
Proof.
  eexists. split; [reflexivity|]. split; [reflexivity|].
  cbn [dict_get String.eqb Ascii.eqb Bool.eqb self].
  split; [|split; [|split]].
  - rewrite <- status_finished_iff. split; congruence.
  - rewrite <- status_open_iff. split; congruence.
  - destruct (finished_run t w) as [t1 [d1 [E [Hfin _]]]].
    rewrite E. eexists. split; [reflexivity|].
    cbn [dict_get String.eqb Ascii.eqb Bool.eqb snd self].
    do 2 f_equal. apply status_finished_iff. exact Hfin.
  - destruct (reopen_run t w) as [t1 [d1 [E [Hfin _]]]].
    rewrite E. eexists. split; [reflexivity|].
    cbn [dict_get String.eqb Ascii.eqb Bool.eqb snd self].
    do 2 f_equal. apply status_open_iff. congruence.
Qed.

(** The number of lists that [User.to_dict] reports. *)
Lemma user_to_dict_run (u : user.row) (w : World) :
  exists d : dict,
    call (User.to_dict url_for) u w = (Ok d, mkCtx u false w)
    /\ map fst d
       = ["username"; "user_url"; "member_since"; "last_seen"; "todolists";
          "todolist_count"]
    /\ dict_get "todolist_count" d
       = Some (PyInt (Z.of_nat
                        (count_if
                           (fun l => sql_eq_str (todolist.creator l)
                                                (user.username u))
                           (todolists (store w))))).
Proof.
  eexists. split; [reflexivity|]. split; [reflexivity|].
  cbn [dict_get String.eqb Ascii.eqb Bool.eqb].
  rewrite <- count_if_length_filter. reflexivity.
Qed.

(** X17.  On a user that is a row of the store and has a username,
    [User.to_dict] changes nothing and returns the six keys of the
    literal.  Its [todolist_count] follows the lists: after
    [TodoList.from_dict] with the user's username as creator it is one
    more, and after [TodoList.from_dict] with another creator or none it
    is the same. *)
Theorem user_to_dict_todolist_count
    (u : user.row) (k : TodoList.model_dict) (w : World) :
  In u (users (store w)) ->
  user.username u <> None ->
  exists (d d' : dict) (n : nat),
    call (User.to_dict url_for) u w = (Ok d, mkCtx u false w)
    /\ call (User.to_dict url_for) u (snd (from_dict TodoList.construct k w))
       = (Ok d', mkCtx u false (snd (from_dict TodoList.construct k w)))
    /\ map fst d
       = ["username"; "user_url"; "member_since"; "last_seen"; "todolists";
          "todolist_count"]
    /\ dict_get "todolist_count" d = Some (PyInt (Z.of_nat n))
    /\ (TodoList.creator k = user.username u ->
        dict_get "todolist_count" d' = Some (PyInt (Z.of_nat (S n))))
    /\ (TodoList.creator k <> user.username u ->
        dict_get "todolist_count" d' = Some (PyInt (Z.of_nat n))).
Proof.
  intros _ Hname.
  destruct (user_to_dict_run u w) as [d [E [Hkeys Hc]]].
  destruct (user_to_dict_run u (snd (from_dict TodoList.construct k w)))
    as [d' [E' [_ Hc']]].
  exists d, d'. eexists.
  split; [exact E|]. split; [exact E'|]. split; [exact Hkeys|].
  split; [exact Hc|].
  pose (l0 := TodoList.__init__ (TodoList.title k) (TodoList.creator k)
                (TodoList.created_at k) w).
  pose (l' := set_pk (next_id (todolists (store w)))
                (column_defaults (clock w) l0)).
  assert (R : snd (from_dict TodoList.construct k w)
              = set_store (mkDB (users (store w))
                                (todolists (store w) ++ [l'])
                                (todos (store w))) w).
  { unfold from_dict, TodoList.construct. fold l0.
    unfold call. rewrite save_unfold. reflexivity. }
  rewrite Hc', R. cbn [store set_store todolists].
  rewrite count_if_app. cbn [count_if].
  change (todolist.creator l') with (TodoList.creator k).
  split.
  - intros ->. destruct (user.username u) as [n|]; [|congruence].
    simpl. rewrite String.eqb_refl. do 3 f_equal. lia.
  - intros Hne.
    assert (X : sql_eq_str (TodoList.creator k) (user.username u) = false).
    { destruct (TodoList.creator k) as [a|], (user.username u) as [b|];
        simpl; try reflexivity.
      apply String.eqb_neq. congruence. }
    rewrite X. do 3 f_equal. lia.
Qed.

End ToDictFacts.

Lemma is_finished_not_null_world_with_todos :
  is_finished_not_null (store world_with_todos).
Proof.
  unfold is_finished_not_null. vm_compute. repeat constructor; discriminate.
Qed.

Lemma todolist_to_dict_counts_witness :
  exists (d : dict) (total open done : nat),
    call (TodoList.to_dict toy_url_for) groceries world_with_todos
    = (Ok d, mkCtx groceries false world_with_todos)
    /\ map fst d
       = ["title"; "creator"; "created_at"; "total_todo_count";
          "open_todo_count"; "finished_todo_count"; "todos"]
    /\ fst (call TodoList.count_todos groceries world_with_todos) = Ok total
    /\ fst (call TodoList.count_open groceries world_with_todos) = Ok open
    /\ fst (call TodoList.count_finished groceries world_with_todos) = Ok done
    /\ dict_get "total_todo_count" d = Some (PyInt (Z.of_nat total))
    /\ dict_get "open_todo_count" d = Some (PyInt (Z.of_nat open))
    /\ dict_get "finished_todo_count" d = Some (PyInt (Z.of_nat done))
    /\ (is_finished_not_null (store world_with_todos) ->
        (open + done = total)%nat).
Proof.
  refine (todolist_to_dict_counts toy_url_for groceries world_with_todos _).
  left. reflexivity.
Defined.

Lemma user_to_dict_todolist_count_witness :
  exists (d d' : dict) (n : nat),
    call (User.to_dict toy_url_for) stored_bob world_with_bob
    = (Ok d, mkCtx stored_bob false world_with_bob)
    /\ call (User.to_dict toy_url_for) stored_bob
         (snd (from_dict TodoList.construct
                 (TodoList.mk_dict (Some "chores") (Some "bob") None)
                 world_with_bob))
       = (Ok d',
          mkCtx stored_bob false
            (snd (from_dict TodoList.construct
                    (TodoList.mk_dict (Some "chores") (Some "bob") None)
                    world_with_bob)))
    /\ map fst d
       = ["username"; "user_url"; "member_since"; "last_seen"; "todolists";
          "todolist_count"]
    /\ dict_get "todolist_count" d = Some (PyInt (Z.of_nat n))
    /\ (TodoList.creator (TodoList.mk_dict (Some "chores") (Some "bob") None)
        = user.username stored_bob ->
        dict_get "todolist_count" d' = Some (PyInt (Z.of_nat (S n))))
    /\ (TodoList.creator (TodoList.mk_dict (Some "chores") (Some "bob") None)
        <> user.username stored_bob ->
        dict_get "todolist_count" d' = Some (PyInt (Z.of_nat n))).
Proof.
  refine (user_to_dict_todolist_count toy_url_for stored_bob
            (TodoList.mk_dict (Some "chores") (Some "bob") None)
            world_with_bob _ _).
  - left. reflexivity.
  - discriminate.
Defined.

(** ** [User.__init__] and [from_dict] *)

Lemma name_setter_ctx (v : option string) (c : Ctx user.row) :
  User.name_setter v c
  = if check_length v 64 && User.matches USERNAME_REGEX v
    then (Ok tt, on_self (user.set_username v) c)
    else (Raise (ValueError (format_arg v ++ " is not a valid username")), c).
Proof.
  unfold User.name_setter.
  destruct (check_length v 64); destruct (User.matches USERNAME_REGEX v);
    reflexivity.
Qed.

Lemma emailaddress_setter_ctx (v : option string) (c : Ctx user.row) :
  User.emailaddress_setter v c
  = if check_length v 64 && User.matches EMAIL_REGEX v
    then (Ok tt, on_self (user.set_email v) c)
    else (Raise (ValueError (format_arg v ++ " is not a valid email address")),
          c).
Proof.
  unfold User.emailaddress_setter.
  destruct (check_length v 64); destruct (User.matches EMAIL_REGEX v);
    reflexivity.
Qed.

Section UserInitFacts.

Variable generate_password_hash : string -> string -> string.
Variable check_password_hash : string -> string -> bool.

Lemma password_setter_ctx (v : option string) (c : Ctx user.row) :
  User.password_setter generate_password_hash v c
  = if truthy_str v
    then
      if check_length
           (Some (generate_password_hash (entropy (world c)) (str_of v))) 128
      then (Ok tt,
            on_self (user.set_password_hash
                       (Some (generate_password_hash (entropy (world c))
                                (str_of v)))) c)
      else (Raise (ValueError "not a valid password, hash is too long"), c)
    else (Raise (ValueError "no password given"), c).
Proof.
  unfold User.password_setter.
  destruct (truthy_str v); [|reflexivity].
  cbv beta iota delta [negb bind gets raise modify].
  destruct (check_length
              (Some (generate_password_hash (entropy (world c)) (str_of v)))
              128);
    reflexivity.
Qed.

(** An assignment whose value is valid changes the object only; any other
    raises [ValueError] and changes nothing. *)
Lemma setattr_run (k : User.kwarg) (c : Ctx user.row) :
  (kwarg_ok generate_password_hash (world c) k = true ->
   exists c' : Ctx user.row,
     User.setattr generate_password_hash k c = (Ok tt, c')
     /\ world c' = world c /\ pending c' = pending c)
  /\ (kwarg_ok generate_password_hash (world c) k = false ->
      exists msg : string,
        User.setattr generate_password_hash k c = (Raise (ValueError msg), c)).
Proof.
  destruct k as [v|v|v|v|v|v|v|v|v|v]; cbn [kwarg_ok User.setattr];
    try (split; [intros _; eexists; split; [reflexivity|split; reflexivity]
                |discriminate]).
  - rewrite name_setter_ctx.
    destruct (check_length v 64 && User.matches USERNAME_REGEX v);
      (split; [intros X|intros X]); try discriminate; eauto.
  - rewrite emailaddress_setter_ctx.
    destruct (check_length v 64 && User.matches EMAIL_REGEX v);
      (split; [intros X|intros X]); try discriminate; eauto.
  - rewrite password_setter_ctx.
    destruct (truthy_str v); cbn [andb];
      [destruct (check_length
                   (Some (generate_password_hash (entropy (world c))
                            (str_of v))) 128)|];
      (split; [intros X|intros X]); try discriminate; eauto.
Qed.

Lemma setattrs_run (kwargs : list User.kwarg) (c : Ctx user.row) :
  (forallb (kwarg_ok generate_password_hash (world c)) kwargs = true ->
   exists c' : Ctx user.row,
     User.setattrs generate_password_hash kwargs c = (Ok tt, c')
     /\ world c' = world c /\ pending c' = pending c)
  /\ (forallb (kwarg_ok generate_password_hash (world c)) kwargs = false ->
      exists (msg : string) (c' : Ctx user.row),
        User.setattrs generate_password_hash kwargs c
        = (Raise (ValueError msg), c')).
Proof.
  revert c. induction kwargs as [|k kwargs IH]; intros c; simpl.
  - split; [|discriminate]. intros _. exists c. auto.
  - destruct (setattr_run k c) as [Hok Hbad].
    destruct (kwarg_ok generate_password_hash (world c) k) eqn:Ek; simpl.
    + destruct (Hok eq_refl) as [c1 [E1 [Hw Hp]]].
      unfold bind. rewrite E1.
      destruct (IH c1) as [IHok IHbad]. rewrite Hw in IHok, IHbad.
      split.
      * intros X. destruct (IHok X) as [c' [E' [Hw' Hp']]].
        exists c'. rewrite E'. split; [reflexivity|]. split; congruence.
      * intros X. destruct (IHbad X) as [msg [c' E']].
        exists msg, c'. exact E'.
    + split; [discriminate|]. intros _.
      destruct (Hbad eq_refl) as [msg E1].
      unfold bind. rewrite E1. eauto.
Qed.

(** X18.  [User.from_dict] validates before it saves: if a [name],
    [emailaddress] or [password] argument fails its setter's validation,
    the constructor raises [ValueError] and the world is left as it was;
    otherwise the constructor returns a user, which is then saved. *)
Theorem user_from_dict_validates (kwargs : list User.kwarg) (w : World) :
  (forallb (kwarg_ok generate_password_hash w) kwargs = false ->
   exists msg : string,
     User.__init__ generate_password_hash kwargs w = Raise (ValueError msg)
     /\ from_dict (User.__init__ generate_password_hash) kwargs w
        = (Raise (ValueError msg), w))
  /\ (forallb (kwarg_ok generate_password_hash w) kwargs = true ->
      exists u : user.row,
        User.__init__ generate_password_hash kwargs w = Ok u
        /\ from_dict (User.__init__ generate_password_hash) kwargs w
           = (fst (call save u w), world_after (call save u w))).
Proof.
  destruct (setattrs_run kwargs (mkCtx user.blank false w)) as [Hok Hbad].
  simpl in Hok, Hbad. split; intros X.
  - destruct (Hbad X) as [msg [c' E]]. exists msg.
    assert (I : User.__init__ generate_password_hash kwargs w
                = Raise (ValueError msg)).
    { unfold User.__init__, call. rewrite E. reflexivity. }
    split; [exact I|]. unfold from_dict. rewrite I. reflexivity.
  - destruct (Hok X) as [c' [E _]]. exists (self c').
    assert (I : User.__init__ generate_password_hash kwargs w = Ok (self c')).
    { unfold User.__init__, call. rewrite E. reflexivity. }
    split; [exact I|]. unfold from_dict. rewrite I. reflexivity.
Qed.

Hypothesis check_own :
  forall salt p, check_password_hash (generate_password_hash salt p) p = true.

(** X19.  Registration: [User.from_dict] with a well-formed name, a
    well-formed email address and a password whose hash fits, none of
    them held by a stored user, returns a stored user with exactly that
    username and email, the hash of the password, the column defaults
    filled in, and a key that no user had; [verify_password] then accepts
    the password. *)
Theorem user_from_dict_registers (n e p : string) (w : World) :
  nonspace_word n -> (String.length n <= 64)%nat ->
  email_shape e -> (String.length e <= 64)%nat ->
  p <> ""%string ->
  (1 <= String.length (generate_password_hash (entropy w) p) <= 128)%nat ->
  (forall r : user.row,
      In r (users (store w)) ->
      sql_eq_str (user.username r) (Some n) = false
      /\ sql_eq_str (user.email r) (Some e) = false) ->
  let r := from_dict (User.__init__ generate_password_hash)
             [User.kw_name (Some n); User.kw_emailaddress (Some e);
              User.kw_password (Some p)] w in
  exists (u : user.row) (i : Z),
    fst r = Ok u
    /\ u = user.mk (Some i) (Some n) (Some e)
             (Some (generate_password_hash (entropy w) p))
             (Some (clock w)) (Some (clock w)) (Some false)
    /\ ~ In (Some i) (map user.id (users (store w)))
    /\ users (store (snd r)) = users (store w) ++ [u]
    /\ fst (call (User.verify_password check_password_hash p) u (snd r))
       = Ok true.
Proof.
  intros Hn Ln He Le Hp Lh Hfree r.
  set (h := generate_password_hash (entropy w) p) in *.
  pose (u0 := user.set_password_hash (Some h)
                (user.set_email (Some e)
                   (user.set_username (Some n) user.blank))).
  assert (Vn : check_length (Some n) 64
               && User.matches USERNAME_REGEX (Some n) = true).
  { apply andb_true_iff. split.
    - apply check_length_str. split; [apply Hn|exact Ln].
    - apply USERNAME_REGEX_accepts. exists n. auto. }
  assert (Ve : check_length (Some e) 64
               && User.matches EMAIL_REGEX (Some e) = true).
  { apply andb_true_iff. split.
    - apply check_length_str. split; [|exact Le].
      destruct He as [x [y [z [[Hx _] [_ [_ ->]]]]]].
      destruct x; [congruence|discriminate].
    - apply EMAIL_REGEX_accepts. exists e. auto. }
  assert (Vp : truthy_str (Some p) = true)
    by (destruct p; [congruence|reflexivity]).
  assert (Vh : check_length (Some h) 128 = true)
    by (apply check_length_hash; exact Lh).
  assert (I : User.__init__ generate_password_hash
                [User.kw_name (Some n); User.kw_emailaddress (Some e);
                 User.kw_password (Some p)] w = Ok u0).
  { unfold User.__init__, call, User.setattrs, User.setattr.
    unfold bind at 1. rewrite name_setter_ctx, Vn.
    unfold bind at 1. rewrite emailaddress_setter_ctx, Ve.
    unfold bind at 1. rewrite password_setter_ctx, Vp.
    cbn [on_self world self pending str_of]. fold h. rewrite Vh.
    reflexivity. }
  pose (i := next_id (users (store w))).
  pose (u := set_pk i (column_defaults (clock w) u0)).
  assert (U : unique_ok (users (store w)) u = true).
  { apply user_unique_ok_iff. intros x Hx.
    destruct (Hfree x Hx) as [F1 F2].
    unfold user_clash. simpl. rewrite F1, F2. reflexivity. }
  assert (E : flush (clock w) u0 (store w)
              = Ok (u, set_table (users (store w) ++ [u]) (store w))).
  { unfold flush. change (pk u0) with (@None Z).
    change (insert u (store w)
            = Ok (u, set_table (users (store w) ++ [u]) (store w))).
    unfold insert. change (table (store w)) with (users (store w)).
    rewrite U. reflexivity. }
  assert (R : r = (Ok u, set_store (set_table (users (store w) ++ [u])
                                              (store w)) w)).
  { unfold r, from_dict. rewrite I. unfold call. rewrite save_unfold. simpl.
    rewrite E. reflexivity. }
  clearbody r. subst r. cbn [fst snd].
  exists u, i.
  split; [reflexivity|]. split; [reflexivity|].
  split; [apply (@next_id_fresh user.row user_model)|].
  split; [reflexivity|].
  unfold call, User.verify_password, User.check_password_hash_py, bind, gets,
    ret. cbn [self fst]. change (user.password_hash u) with (Some h).
  cbn [fst]. f_equal. apply check_own.
Qed.

End UserInitFacts.

Lemma user_from_dict_validates_witness :
  (exists msg : string,
      User.__init__ toy_generate [User.kw_name (Some "bo b")] sample_world
      = Raise (ValueError msg)
      /\ from_dict (User.__init__ toy_generate) [User.kw_name (Some "bo b")]
           sample_world
         = (Raise (ValueError msg), sample_world))
  /\ (exists u : user.row,
         User.__init__ toy_generate [User.kw_name (Some "bob")] sample_world
         = Ok u
         /\ from_dict (User.__init__ toy_generate) [User.kw_name (Some "bob")]
              sample_world
            = (fst (call save u sample_world),
               world_after (call save u sample_world))).
Proof.
  split.
  - apply (proj1 (user_from_dict_validates toy_generate
                    [User.kw_name (Some "bo b")] sample_world)).
    reflexivity.
  - apply (proj2 (user_from_dict_validates toy_generate
                    [User.kw_name (Some "bob")] sample_world)).
    reflexivity.
Defined.

Lemma alice_is_nonspace_word : nonspace_word "alice".
Proof. split; [discriminate|reflexivity]. Qed.

Lemma alice_email_shape : email_shape "alice@example.org".
Proof.
  exists "alice"%string, "example"%string, "org"%string.
  repeat split; try discriminate; reflexivity.
Qed.

Lemma user_from_dict_registers_witness :
  exists (u : user.row) (i : Z),
    fst (from_dict (User.__init__ toy_generate)
           [User.kw_name (Some "alice");
            User.kw_emailaddress (Some "alice@example.org");
            User.kw_password (Some "hunter2")] world_with_bob) = Ok u
    /\ u = user.mk (Some i) (Some "alice") (Some "alice@example.org")
             (Some (toy_generate (entropy world_with_bob) "hunter2"))
             (Some (clock world_with_bob)) (Some (clock world_with_bob))
             (Some false)
    /\ ~ In (Some i) (map user.id (users (store world_with_bob)))
    /\ users (store (snd (from_dict (User.__init__ toy_generate)
                            [User.kw_name (Some "alice");
                             User.kw_emailaddress (Some "alice@example.org");
                             User.kw_password (Some "hunter2")]
                            world_with_bob)))
       = users (store world_with_bob) ++ [u]
    /\ fst (call (User.verify_password toy_check "hunter2") u
              (snd (from_dict (User.__init__ toy_generate)
                      [User.kw_name (Some "alice");
                       User.kw_emailaddress (Some "alice@example.org");
                       User.kw_password (Some "hunter2")]
                      world_with_bob)))
       = Ok true.
Proof.
  apply (@user_from_dict_registers toy_generate toy_check toy_check_own
           "alice" "alice@example.org" "hunter2" world_with_bob
           alice_is_nonspace_word).
  - simpl; lia.
  - exact alice_email_shape.
  - simpl; lia.
  - discriminate.
  - simpl; lia.
  - intros r [<-|[]]. split; reflexivity.
Defined.

(** ** Assignment to [User.name] and [User.emailaddress] *)

(** X20.  Assigning [User.name] either stores the value, which the
    property then returns, or raises [ValueError] and leaves the user as
    it was; the world is untouched either way.  [None] is rejected; a
    string is stored exactly when it has 1 to 64 characters and is free
    of white space, up to one newline at the very end. *)
Theorem name_assignment (v : option string) (u : user.row) (w : World) :
  (is_ok (fst (call (User.name_setter v) u w)) = true ->
   call (User.name_setter v) u w
   = (Ok tt, mkCtx (user.set_username v u) false w)
   /\ fst (User.name (snd (call (User.name_setter v) u w))) = Ok v)
  /\ (is_ok (fst (call (User.name_setter v) u w)) = false ->
      exists msg : string,
        call (User.name_setter v) u w
        = (Raise (ValueError msg), mkCtx u false w))
  /\ (v = None -> is_ok (fst (call (User.name_setter v) u w)) = false)
  /\ (forall s : string,
         v = Some s ->
         (is_ok (fst (call (User.name_setter v) u w)) = true
          <-> (String.length s <= 64)%nat
              /\ exists b : string,
                   nonspace_word b
                   /\ (s = b \/ s = (b ++ String LF "")%string))).
Proof.
  split; [|split; [|split]].
  - rewrite name_setter_run.
    destruct (check_length v 64 && User.matches USERNAME_REGEX v);
      [|discriminate].
    intros _. split; reflexivity.
  - rewrite name_setter_run.
    destruct (check_length v 64 && User.matches USERNAME_REGEX v);
      [discriminate|].
    intros _. eauto.
  - intros ->. reflexivity.
  - intros s ->. apply name_setter_accepts_iff.
Qed.

(** X21.  Assigning [User.emailaddress] either stores the value, which the
    property then returns, or raises [ValueError] and leaves the user as
    it was; the world is untouched either way.  [None] is rejected; a
    string is stored exactly when it has at most 64 characters and the
    shape [nonspace@nonspace.nonspace], up to one newline at the very
    end. *)
Theorem emailaddress_assignment
    (v : option string) (u : user.row) (w : World) :
  (is_ok (fst (call (User.emailaddress_setter v) u w)) = true ->
   call (User.emailaddress_setter v) u w
   = (Ok tt, mkCtx (user.set_email v u) false w)
   /\ fst (User.emailaddress (snd (call (User.emailaddress_setter v) u w)))
      = Ok v)
  /\ (is_ok (fst (call (User.emailaddress_setter v) u w)) = false ->
      exists msg : string,
        call (User.emailaddress_setter v) u w
        = (Raise (ValueError msg), mkCtx u false w))
  /\ (v = None -> is_ok (fst (call (User.emailaddress_setter v) u w)) = false)
  /\ (forall s : string,
         v = Some s ->
         (is_ok (fst (call (User.emailaddress_setter v) u w)) = true
          <-> (String.length s <= 64)%nat
              /\ exists e : string,
                   email_shape e
                   /\ (s = e \/ s = (e ++ String LF "")%string))).
Proof.
  split; [|split; [|split]].
  - rewrite emailaddress_setter_run.
    destruct (check_length v 64 && User.matches EMAIL_REGEX v);
      [|discriminate].
    intros _. split; reflexivity.
  - rewrite emailaddress_setter_run.
    destruct (check_length v 64 && User.matches EMAIL_REGEX v);
      [discriminate|].
    intros _. eauto.
  - intros ->. reflexivity.
  - intros s ->. apply emailaddress_setter_accepts_iff.
Qed.

Lemma name_assignment_witness :
  call (User.name_setter (Some "alice")) user.blank sample_world
  = (Ok tt, mkCtx (user.set_username (Some "alice") user.blank) false
              sample_world)
  /\ fst (User.name
            (snd (call (User.name_setter (Some "alice")) user.blank
                    sample_world)))
     = Ok (Some "alice").
Proof.
  apply (proj1 (name_assignment (Some "alice") user.blank sample_world)).
  reflexivity.
Defined.

Lemma emailaddress_assignment_witness :
  exists msg : string,
    call (User.emailaddress_setter (Some "alice")) user.blank sample_world
    = (Raise (ValueError msg), mkCtx user.blank false sample_world).
Proof.
  apply (proj1 (proj2 (emailaddress_assignment (Some "alice") user.blank
                         sample_world))).
  reflexivity.
Defined.

(** ** Rejected saves of a user *)

Lemma user_unique_ok_false (rows : list user.row) (x u : user.row) :
  In x rows -> user_clash x u = true -> unique_ok rows u = false.
Proof.
  intros Hin C.
  destruct (unique_ok rows u) eqn:U; [|reflexivity].
  rewrite (proj1 (user_unique_ok_iff rows u) U x Hin) in C. discriminate.
Qed.

(** X22.  Saving a new user that shares its username or its email with a
    stored user does not raise and stores nothing: [save] returns the
    user as it was, without a key, and the world is as before. *)
Theorem save_new_user_clash_is_suppressed
    (u x : user.row) (w : World) :
  user.id u = None ->
  In x (users (store w)) ->
  user_clash x u = true ->
  call save u w = (Ok u, mkCtx u false w).
Proof.
  intros Hid Hin C.
  pose (u' := set_pk (next_id (users (store w)))
                (column_defaults (clock w) u)).
  assert (U : unique_ok (users (store w)) u' = false).
  { apply user_unique_ok_false with (x := x); [exact Hin|exact C]. }
  assert (E : flush (clock w) u (store w) = Raise IntegrityError).
  { unfold flush. change (pk u) with (user.id u). rewrite Hid.
    change (insert u' (store w) = Raise IntegrityError).
    unfold insert. change (table (store w)) with (users (store w)).
    rewrite U. reflexivity. }
  unfold call. rewrite save_unfold. simpl. rewrite E.
  unfold reload. change (pk u) with (user.id u). rewrite Hid.
  reflexivity.
Qed.

(** X23.  Saving a stored user whose username or email has been changed
    to one that another stored user holds does not raise and stores
    nothing; after the rollback the returned user reads as its stored
    row, so the change is lost. *)
Theorem save_clashing_update_reverts
    (u1 r x : user.row) (i : Z) (w : World) :
  user.id u1 = Some i ->
  query_get i (store w) = Some r ->
  In x (users (store w)) ->
  user.id x <> Some i ->
  user_clash x u1 = true ->
  call save u1 w = (Ok r, mkCtx r false w).
Proof.
  intros Hid Hget Hin Hx C.
  assert (Hex : existsb (has_pk i) (users (store w)) = true).
  { apply existsb_exists. exists r. unfold query_get in Hget.
    apply find_some in Hget. exact Hget. }
  assert (U : unique_ok (filter (fun y => negb (has_pk i y))
                                (users (store w))) u1 = false).
  { apply user_unique_ok_false with (x := x); [|exact C].
    apply filter_In. split; [exact Hin|].
    apply negb_true_iff.
    destruct (has_pk i x) eqn:E; [|reflexivity].
    apply (@has_pk_iff user.row user_model) in E. simpl in E. congruence. }
  assert (E : flush (clock w) u1 (store w) = Raise IntegrityError).
  { unfold flush. change (pk u1) with (user.id u1). rewrite Hid.
    change (table (store w)) with (users (store w)). rewrite Hex.
    unfold update. change (table (store w)) with (users (store w)).
    rewrite U. reflexivity. }
  unfold call. rewrite save_unfold. simpl. rewrite E.
  unfold reload. change (pk u1) with (user.id u1). rewrite Hid.
  unfold query_get in Hget. rewrite Hget.
  reflexivity.
Qed.

Lemma save_new_user_clash_is_suppressed_witness :
  call save (user.set_email (Some "bob@example.org") bob) world_with_bob
  = (Ok (user.set_email (Some "bob@example.org") bob),
     mkCtx (user.set_email (Some "bob@example.org") bob) false world_with_bob).
Proof.
  refine (save_new_user_clash_is_suppressed
            (user.set_email (Some "bob@example.org") bob)
            (self_after (call save bob sample_world)) world_with_bob
            _ stored_bob_in_world_with_bob _);
    vm_compute; reflexivity.
Defined.

(** ** [TodoList.from_dict] *)

(** X24.  [TodoList.from_dict] never raises: it returns a list with a key
    that no list had, the given title or "untitled" for a missing or empty
    one, the given creation time or the current time, and the given
    creator; the list is appended to the table and nothing else
    changes. *)
Theorem todolist_from_dict_appends (k : TodoList.model_dict) (w : World) :
  exists (l : todolist.row) (i : Z),
    from_dict TodoList.construct k w
    = (Ok l,
       set_store (mkDB (users (store w)) (todolists (store w) ++ [l])
                       (todos (store w))) w)
    /\ l = todolist.mk (Some i)
             (Some (match TodoList.title k with
                    | Some (String c s) => String c s
                    | _ => "untitled"
                    end))
             (Some (match TodoList.created_at k with
                    | Some t => t
                    | None => clock w
                    end))
             (TodoList.creator k)
    /\ ~ In (Some i) (map todolist.id (todolists (store w))).
Proof.
  pose (l0 := TodoList.__init__ (TodoList.title k) (TodoList.creator k)
                (TodoList.created_at k) w).
  exists (set_pk (next_id (todolists (store w)))
            (column_defaults (clock w) l0)),
         (next_id (todolists (store w))).
  split; [|split].
  - unfold from_dict, TodoList.construct. fold l0.
    unfold call. rewrite save_unfold. reflexivity.
  - unfold l0, TodoList.__init__. simpl.
    destruct (TodoList.title k) as [[|c s]|];
      destruct (TodoList.created_at k); reflexivity.
  - apply (@next_id_fresh todolist.row todolist_model).
Qed.

(** ** The sample store with two users *)

Lemma stored_bob_in_world_with_two_users :
  In (self_after (call save bob sample_world))
     (users (store world_with_two_users)).
Proof.
  vm_compute. left. reflexivity.
Qed.

Lemma save_writes_one_row_witness :
  In (self_after (call save bob sample_world))
     (users (store (world_after (call save alice world_with_two_users)))).
Proof.
  refine (proj1 (proj1 save_writes_one_row alice world_with_two_users)
            (self_after (call save bob sample_world))
            stored_bob_in_world_with_two_users _).
  vm_compute. discriminate.
Defined.

Lemma save_clashing_update_reverts_witness :
  call save
    (user.set_username (Some "bob")
       (self_after (call save alice world_with_bob)))
    world_with_two_users
  = (Ok (self_after (call save alice world_with_bob)),
     mkCtx (self_after (call save alice world_with_bob)) false
           world_with_two_users).
Proof.
  refine (@save_clashing_update_reverts
            (user.set_username (Some "bob")
               (self_after (call save alice world_with_bob)))
            (self_after (call save alice world_with_bob))
            (self_after (call save bob sample_world))
            2%Z world_with_two_users
            _ _ stored_bob_in_world_with_two_users _ _);
    vm_compute; try reflexivity; discriminate.
Defined.
